(** * stolon: the [stolonctl] command line and the [stolonrpc] service

    A shallow embedding of [cmd/stolonctl/stolonctl.go] and
    [cmd/stolonrpc/stolonrpc.go].

    Go values are modelled as follows.
    - [string] is [String.string]; [[]byte] is [list byte], the nil slice
      being [[]].
    - A value of interface type [error] is [option error]: [None] is Go's
      [nil].
    - A Go function returning [(T, error)] returns a pair [T * option error].
    - A call into a library or into another package is an entry of the
      effect trace; what the callee answers comes from a [World] record.
    - [os.Exit], a run-time panic and a [select] that is never served end a
      computation early: see [Res]. *)

From Stdlib Require Import String Ascii List Bool NArith ZArith Lia.
From Stdlib.Strings Require Import Byte.
From Stdlib Require Import DecimalString.
Import ListNotations.

Local Open Scope string_scope.
Local Open Scope list_scope.

Definition bytes := list byte.

(** ** Errors, as [github.com/gravitational/trace] builds them *)

Module trace.

(** The error values the two programs can hold.  [ErrorString] is what
    [errors.New] makes; [Foreign] stands for an error made by a library
    ([os], [io/ioutil], [kingpin], [logrus], [net/http], the store client);
    [TraceErr] is the wrapper [trace.Wrap] puts around an error, with the
    user message given to it (the empty string when none is given). *)
Inductive error : Type :=
| BadParameterError (message : string)
| ErrorString (text : string)
| Foreign (description : string)
| TraceErr (err : error) (message : string).

(** [trace.Wrap(err, args...)]: nil stays nil.  The library keeps a single
    wrapper around an error that is one of its own already; the model adds a
    layer at each call, which [Unwrap] and [IsBadParameter] do not see. *)
Definition Wrap (err : option error) (message : string) : option error :=
  match err with
  | None => None
  | Some e => Some (TraceErr e message)
  end.

(** [trace.BadParameter(message)]. *)
Definition BadParameter (message : string) : option error :=
  Some (TraceErr (BadParameterError message) "").

(** [trace.Unwrap]: the error under every wrapper. *)
Fixpoint Unwrap (e : error) : error :=
  match e with
  | TraceErr inner _ => Unwrap inner
  | _ => e
  end.

(** [trace.IsBadParameter]. *)
Definition IsBadParameter (e : error) : bool :=
  match Unwrap e with
  | BadParameterError _ => true
  | _ => false
  end.

(** The message of the error under the wrappers. *)
Definition OrigMessage (e : error) : string :=
  match Unwrap e with
  | BadParameterError m => m
  | ErrorString m => m
  | Foreign m => m
  | TraceErr _ m => m
  end.

End trace.

Import trace.

(** What a library call hands back: a value or an error. *)
Inductive result (A : Type) : Type :=
| Ok (a : A)
| Err (e : error).
Arguments Ok {A} a.
Arguments Err {A} e.

(** ** Processes

    A computation of a Go program yields the effects it performed, in
    order, and how it ended. *)

Inductive Res (A : Type) : Type :=
| Val (a : A)                (* returned [a] *)
| Exited (code : Z)          (* [os.Exit(code)] *)
| Panicked (reason : string) (* run-time panic *)
| Blocked.                   (* waits in a [select] that nothing serves *)
Arguments Val {A} a.
Arguments Exited {A} code.
Arguments Panicked {A} reason.
Arguments Blocked {A}.

Section Process.

Variable Effect : Type.

Definition Proc (A : Type) : Type := (Res A * list Effect)%type.

Definition ret {A} (a : A) : Proc A := (Val a, []).

Definition bind {A B} (m : Proc A) (k : A -> Proc B) : Proc B :=
  match m with
  | (Val a, t) => let (r, t') := k a in (r, t ++ t')
  | (Exited c, t) => (Exited c, t)
  | (Panicked s, t) => (Panicked s, t)
  | (Blocked, t) => (Blocked, t)
  end.

(** Perform effect [e]; the environment answers [a]. *)
Definition call {A} (e : Effect) (a : A) : Proc A := (Val a, [e]).

(** A statement whose value is dropped, as in [trace.Wrap(err)] on a line
    of its own. *)
Definition discard {A} (a : A) : Proc unit := (Val tt, []).

Definition exit {A} (code : Z) : Proc A := (Exited code, []).
Definition panic {A} (reason : string) : Proc A := (Panicked reason, []).
Definition block {A} : Proc A := (Blocked, []).

Definition outcome {A} (m : Proc A) : Res A := fst m.
Definition effects {A} (m : Proc A) : list Effect := snd m.

End Process.

Arguments ret {Effect A} a.
Arguments bind {Effect A B} m k.
Arguments call {Effect A} e a.
Arguments discard {Effect A} a.
Arguments exit {Effect A} code.
Arguments panic {Effect A} reason.
Arguments block {Effect A}.
Arguments outcome {Effect A} m.
Arguments effects {Effect A} m.

Declare Scope proc_scope.
Delimit Scope proc_scope with proc.
Notation "x <- m ;; k" := (bind m (fun x => k))
  (at level 61, m at next level, right associativity) : proc_scope.
Notation "m ;;; k" := (bind m (fun _ => k))
  (at level 61, right associativity) : proc_scope.
Local Open Scope proc_scope.

(** ** What [fmt] prints *)

Module fmt.

Definition newline : string := String (ascii_of_nat 10) EmptyString.

(** A byte under the verb [%v]: its value in decimal. *)
Definition byte_v (b : byte) : string :=
  NilEmpty.string_of_uint (N.to_uint (Byte.to_N b)).

(** A [[]byte] operand under [%v]: the decimal values between brackets,
    a space between two of them. *)
Definition bytes_v (data : bytes) : string :=
  "[" ++ String.concat " " (map byte_v data) ++ "]".

(** [fmt.Fprintln(w, data)] for one operand [data] of type [[]byte]. *)
Definition Sprintln_bytes (data : bytes) : string := bytes_v data ++ newline.

(** [fmt.Fprintln(w, s)] for one operand [s] of type [string]. *)
Definition Sprintln_string (s : string) : string := s ++ newline.

End fmt.

(** ** [cmd/stolonctl/stolonctl.go] *)

Module stolonctl.

Definition EnvStoreEndpoints := "STOLONCTL_STORE_ENDPOINTS".
Definition EnvStoreBackend := "STOLONCTL_STORE_BACKEND".
Definition EnvStoreKey := "STOLONCTL_STORE_KEY".
Definition EnvStoreCACert := "STOLONCTL_STORE_CA_CERT".
Definition EnvStoreCert := "STOLONCTL_STORE_CERT".
Definition OutputJSON := "json".

(** The [config] struct that [run] fills from the store flags.  It is
    declared in another file of the package; the fields are the ones [run]
    binds a flag to. *)
Record config : Type := {
  storeEndpoints : string;
  storeBackend : string;
  storeCertFile : string;
  storeKeyFile : string;
  storeCACertFile : string
}.

(** What the program does to the outside, in the order it does it. *)
Inductive Effect : Type :=
| InitLoggerDebug                        (* util.InitLoggerDebug() *)
| InitLoggerCLI                          (* util.InitLoggerCLI() *)
| AppParse (args : list string)          (* app.Parse(args) *)
| NewClient (cfg : config)               (* newClient(cfg) *)
| GetCluster (clusterName : string)      (* clt.getCluster(clusterName) *)
| ClusterConfig                          (* cluster.Config() *)
| ClusterPatchConfig (data : bytes)      (* cluster.PatchConfig(data) *)
| ClusterReplaceConfig (data : bytes)    (* cluster.ReplaceConfig(data) *)
| ClientClusters                         (* clt.Clusters() *)
| Status (clusterName : string) (masterOnly outputJson : bool)
| ReadAllStdin                           (* ioutil.ReadAll(os.Stdin) *)
| ReadFile (fileName : string)           (* ioutil.ReadFile(fileName) *)
| Stdout (text : string)                 (* text written to os.Stdout *)
| LogError (err : error).                (* log.Error(trace.DebugReport(err)) *)

(** The effects that are operations of the cluster client. *)
Definition isClientCall (e : Effect) : bool :=
  match e with
  | GetCluster _ | ClusterConfig | ClusterPatchConfig _
  | ClusterReplaceConfig _ | ClientClusters | Status _ _ _ => true
  | _ => false
  end.

(** An effect other than the call of the debug-mode logger initialiser. *)
Definition notDebugInit (e : Effect) : Prop := e <> InitLoggerDebug.

Section Collaborators.

(** The configuration document of [pkg/cluster]. *)
Context {Cfg : Type}.

(** A cluster handle, with the three methods the commands call. *)
Record cluster : Type := {
  Config : result Cfg;
  PatchConfig : bytes -> option error;
  ReplaceConfig : bytes -> option error
}.

(** The store client. *)
Record client : Type := {
  getCluster : string -> result cluster;
  Clusters : result (list string)
}.

(** What [app.Parse] leaves behind: the selected command and the variables
    the flags and arguments are bound to. *)
Record Parsed : Type := {
  cmd : string;
  debug : bool;
  cfg : config;
  cmdClusterConfigName : string;
  cmdClusterPatchName : string;
  cmdClusterPatchFile : string;
  cmdClusterReplaceName : string;
  cmdClusterReplaceFile : string;
  cmdClusterStatusName : string;
  cmdClusterStatusMasterOnly : bool;
  cmdClusterStatusOutputJson : bool
}.

(** Everything outside the file: the standard input, the file system, the
    libraries, and the functions [newClient] and [status] of the package,
    which other files define.  [kingpin_Parse] is what [app.Parse] returns;
    the invocations on which it ends the process itself (the help texts)
    are not worlds of this record. *)
Record World : Type := {
  os_Stdin : result bytes;                      (* ioutil.ReadAll(os.Stdin) *)
  ioutil_ReadFile : string -> result bytes;     (* ioutil.ReadFile *)
  json_MarshalIndent : Cfg -> result bytes;     (* json.MarshalIndent(_, "", "\t") *)
  kingpin_Parse : list string -> result Parsed; (* app.Parse *)
  newClient : config -> result client;
  status : client -> string -> bool -> bool -> option error
}.

Variable w : World.

(** [func printConfig(clt *client, clusterName string) error] *)
Definition printConfig (clt : client) (clusterName : string)
  : Proc Effect (option error) :=
  r <- call (GetCluster clusterName) (getCluster clt clusterName) ;;
  match r with
  | Err e => ret (Wrap (Some e) "")
  | Ok cluster =>
    r <- call ClusterConfig (Config cluster) ;;
    match r with
    | Err e => ret (Wrap (Some e) "")
    | Ok cfg =>
      match json_MarshalIndent w cfg with
      | Err e => ret (Wrap (Some e) "failed to marshal configuration")
      | Ok data =>
        call (Stdout (fmt.Sprintln_bytes data)) tt ;;;
        ret None
      end
    end
  end.

(** [func readFile(fileName string, readStdin bool) ([]byte, error)] *)
Definition readFile (fileName : string) (readStdin : bool)
  : Proc Effect (bytes * option error) :=
  if (readStdin && negb (fileName =? "")) || (negb readStdin && (fileName =? ""))
  then ret ([], BadParameter "need either file to read from or readStdin option")
  else
    if readStdin then
      r <- call ReadAllStdin (os_Stdin w) ;;
      match r with
      | Err e => ret ([], Wrap (Some e) "cannot read config file from stdin")
      | Ok config => ret (config, Wrap None "")
      end
    else
      r <- call (ReadFile fileName) (ioutil_ReadFile w fileName) ;;
      match r with
      | Err e => ret ([], Wrap (Some e) "can not read file")
      | Ok config => ret (config, Wrap None "")
      end.

(** [func patchConfig(clt *client, clusterName string, patchFile string,
    readStdin bool) error] *)
Definition patchConfig (clt : client) (clusterName patchFile : string)
  (readStdin : bool) : Proc Effect (option error) :=
  r <- readFile patchFile readStdin ;;
  match snd r with
  | Some err => ret (Wrap (Some err) "")
  | None =>
    let data := fst r in
    c <- call (GetCluster clusterName) (getCluster clt clusterName) ;;
    match c with
    | Err e => ret (Wrap (Some e) "")
    | Ok cluster =>
      err <- call (ClusterPatchConfig data) (PatchConfig cluster data) ;;
      ret (Wrap err "")
    end
  end.

(** [func replaceConfig(clt *client, clusterName string, replaceFile string,
    readStdin bool) error] *)
Definition replaceConfig (clt : client) (clusterName replaceFile : string)
  (readStdin : bool) : Proc Effect (option error) :=
  r <- readFile replaceFile readStdin ;;
  match snd r with
  | Some err => ret (Wrap (Some err) "")
  | None =>
    let data := fst r in
    c <- call (GetCluster clusterName) (getCluster clt clusterName) ;;
    match c with
    | Err e => ret (Wrap (Some e) "")
    | Ok cluster =>
      err <- call (ClusterReplaceConfig data) (ReplaceConfig cluster data) ;;
      ret (Wrap err "")
    end
  end.

(** The [for _, cluster := range clusters] of [list]. *)
Fixpoint printClusters (clusters : list string) : Proc Effect unit :=
  match clusters with
  | [] => ret tt
  | cluster :: rest =>
    call (Stdout (fmt.Sprintln_string cluster)) tt ;;;
    printClusters rest
  end.

(** [func list(clt *client) error] *)
Definition list (clt : client) : Proc Effect (option error) :=
  r <- call ClientClusters (Clusters clt) ;;
  match r with
  | Err e => ret (Wrap (Some e) "")
  | Ok clusters => printClusters clusters ;;; ret None
  end.

(** [os.Args[len(os.Args)-1]]: indexing panics out of range. *)
Definition lastArg (osArgs : Datatypes.list string) : Proc Effect string :=
  match nth_error osArgs (length osArgs - 1) with
  | Some a => ret a
  | None => panic "index out of range"
  end.

(** [func run() error], on the argument vector [os.Args].

    [debug] is declared [false]; [BoolVar(&debug)] binds the flag to it and
    stores nothing; the [if debug] that follows reads it; [app.Parse], which
    is what assigns the flag variables, runs after that. *)
Definition run (osArgs : Datatypes.list string) : Proc Effect (option error) :=
  let debug := false in
  (if debug then call InitLoggerDebug tt else call InitLoggerCLI tt) ;;;
  match osArgs with
  | [] => panic "slice bounds out of range"
  | _ :: args =>
    r <- call (AppParse args) (kingpin_Parse w args) ;;
    match r with
    | Err err => ret (Wrap (Some err) "")
    | Ok p =>
      c <- call (NewClient (cfg p)) (newClient w (cfg p)) ;;
      match c with
      | Err err => ret (Wrap (Some err) "")
      | Ok ctl =>
        if cmd p =? "cluster config" then
          printConfig ctl (cmdClusterConfigName p)
        else if cmd p =? "cluster patch" then
          a <- lastArg osArgs ;;
          patchConfig ctl (cmdClusterPatchName p) (cmdClusterPatchFile p) (a =? "-")
        else if cmd p =? "cluster replace" then
          a <- lastArg osArgs ;;
          replaceConfig ctl (cmdClusterReplaceName p) (cmdClusterReplaceFile p) (a =? "-")
        else if cmd p =? "cluster status" then
          call (Status (cmdClusterStatusName p) (cmdClusterStatusMasterOnly p)
                       (cmdClusterStatusOutputJson p))
               (status w ctl (cmdClusterStatusName p) (cmdClusterStatusMasterOnly p)
                       (cmdClusterStatusOutputJson p))
        else if cmd p =? "cluster list" then
          list ctl
        else ret None
      end
    end
  end.

(** [func main()] *)
Definition main (osArgs : Datatypes.list string) : Proc Effect unit :=
  err <- run osArgs ;;
  match err with
  | Some e => call (LogError e) tt ;;; exit 1
  | None => ret tt
  end.

End Collaborators.

Arguments cluster : clear implicits.
Arguments client : clear implicits.
Arguments World : clear implicits.

End stolonctl.

(** ** [cmd/stolonrpc/stolonrpc.go] *)

Module stolonrpc.

(** [ErrCantParseConfig = errors.New("Can't parse config")] *)
Definition ErrCantParseConfig : error := ErrorString "Can't parse config".

(** [type Config struct] *)
Record Config : Type := {
  LogLevel : string;
  Port : string;
  DatabaseHost : string;
  DatabasePort : string;
  DatabaseUsername : string
}.

(** [postgresql.ConnSettings], with the fields [main] sets. *)
Record ConnSettings : Type := {
  Host : string;
  ConnPort : string;
  Username : string
}.

(** [logrus.Level] *)
Inductive Level : Type :=
| PanicLevel | FatalLevel | ErrorLevel | WarnLevel | InfoLevel | DebugLevel.

(** The signals [main] asks [signal.Notify] for. *)
Inductive Signal : Type := SIGINT | SIGTERM.

(** [syscall.Signal.String], which the verb [%s] calls. *)
Definition Signal_String (s : Signal) : string :=
  match s with
  | SIGINT => "interrupt"
  | SIGTERM => "terminated"
  end.

(** A [*Config] under the verb [%+v]. *)
Definition Config_plus_v (c : Config) : string :=
  "&{LogLevel:" ++ LogLevel c ++ " Port:" ++ Port c
  ++ " DatabaseHost:" ++ DatabaseHost c ++ " DatabasePort:" ++ DatabasePort c
  ++ " DatabaseUsername:" ++ DatabaseUsername c ++ "}".

(** [strings.ToLower], on ASCII text. *)
Definition lower (c : ascii) : ascii :=
  let n := nat_of_ascii c in
  if (65 <=? n)%nat && (n <=? 90)%nat then ascii_of_nat (n + 32) else c.

Fixpoint ToLower (s : string) : string :=
  match s with
  | EmptyString => EmptyString
  | String c rest => String (lower c) (ToLower rest)
  end.

(** What one [select] of the supervision loop receives: the value sent on
    [errChan] (an [error], which may be nil) or the signal sent on
    [signalChan]. *)
Inductive Recv : Type :=
| FromErrChan (err : option error)
| FromSignalChan (s : Signal).

(** What the program does to the outside, in the order it does it. *)
Inductive Effect : Type :=
| EnvconfigProcess                        (* envconfig.Process("", &config) *)
| TraceSetDebug (on : bool)               (* trace.SetDebug(on) *)
| LogSetLevel (sev : Level)               (* log.SetLevel(sev) *)
| LogSetFormatter                         (* log.SetFormatter(&log.TextFormatter{}) *)
| LogSetOutput                            (* log.SetOutput(os.Stdout) *)
| LogInfo (line : string)                 (* log.Infof(...) *)
| LogFatal (err : error)                  (* the logging of log.Fatal(err) *)
| NewServer                               (* rpc.NewServer() *)
| RegisterCodec (contentType : string)    (* s.RegisterCodec(json.NewCodec(), _) *)
| RegisterService (name : string) (dbConn : ConnSettings)
| NewRouter                               (* mux.NewRouter() *)
| Handle (path : string)                  (* r.Handle(path, s) *)
| GoListenAndServe (addr : string)        (* go func() { errChan <- http.ListenAndServe(addr, r) }() *)
| SignalNotify (sigs : list Signal)       (* signal.Notify(signalChan, sigs...) *)
| Select (r : Recv).                      (* one receive of the select *)

(** Everything outside the file. *)
Record World : Type := {
  envconfig_Process : result Config;          (* the struct filled, or the error *)
  log_ParseLevel : string -> result Level;    (* logrus.ParseLevel *)
  selected : list Recv                        (* what the successive selects receive *)
}.

Section Service.

Variable w : World.

(** [func GetConfig], which returns a [*Config] and an [error]. *)
Definition GetConfig : Proc Effect (option Config * option error) :=
  r <- call EnvconfigProcess (envconfig_Process w) ;;
  match r with
  | Err _ => ret (None, Wrap (Some ErrCantParseConfig) "")
  | Ok config => ret (Some config, None)
  end.

(** [func setupLogging(level string) error] *)
Definition setupLogging (level : string) : Proc Effect (option error) :=
  let lvl := ToLower level in
  (if lvl =? "debug" then call (TraceSetDebug true) tt else ret tt) ;;;
  match log_ParseLevel w lvl with
  | Err err => ret (Some err)
  | Ok sev =>
    call (LogSetLevel sev) tt ;;;
    call LogSetFormatter tt ;;;
    call LogSetOutput tt ;;;
    ret None
  end.

(** The [for { select { ... } }] that ends [main], on the receives the
    selects make, in order.  [log.Fatal] logs and calls [os.Exit(1)]. *)
Fixpoint superviseLoop (recvs : list Recv) : Proc Effect unit :=
  match recvs with
  | [] => block
  | FromErrChan err :: rest =>
    call (Select (FromErrChan err)) tt ;;;
    match err with
    | Some e => call (LogFatal e) tt ;;; exit 1
    | None => superviseLoop rest
    end
  | FromSignalChan s :: rest =>
    call (Select (FromSignalChan s)) tt ;;;
    call (LogInfo ("Captured " ++ Signal_String s ++ ". Exiting...")) tt ;;;
    exit 0
  end.

(** [func main()].  The pointer [c] is nil when [GetConfig] fails, and
    [c.LogLevel] then panics. *)
Definition main : Proc Effect unit :=
  r <- GetConfig ;;
  (match snd r with
   | Some err => discard (Wrap (Some err) "")
   | None => ret tt
   end) ;;;
  match fst r with
  | None => panic "invalid memory address or nil pointer dereference"
  | Some c =>
    err <- setupLogging (LogLevel c) ;;
    (match err with
     | Some e => discard (Wrap (Some e) "")
     | None => ret tt
     end) ;;;
    call (LogInfo ("Start with config: " ++ Config_plus_v c)) tt ;;;
    call NewServer tt ;;;
    call (RegisterCodec "application/json") tt ;;;
    call (RegisterCodec "application/json;charset=UTF-8") tt ;;;
    let dbConn := {| Host := DatabaseHost c;
                     ConnPort := DatabasePort c;
                     Username := DatabaseUsername c |} in
    call (RegisterService "DatabaseOperation" dbConn) tt ;;;
    call NewRouter tt ;;;
    call (Handle "/rpc") tt ;;;
    call (GoListenAndServe (":" ++ Port c)) tt ;;;
    call (SignalNotify [SIGINT; SIGTERM]) tt ;;;
    superviseLoop (selected w)
  end.

End Service.

(** [n] nil values received from [errChan], one after the other. *)
Definition nilFaults (n : nat) : list Recv := repeat (FromErrChan None) n.

(** The line [main] logs when it receives the signal [s]. *)
Definition captured (s : Signal) : string :=
  "Captured " ++ Signal_String s ++ ". Exiting...".

(** What [main] does between [setupLogging] and the supervision loop, for
    the configuration [c]: the start line, the RPC endpoint, the listener,
    the signal registration. *)
Definition startupEffects (c : Config) : list Effect :=
  [LogInfo ("Start with config: " ++ Config_plus_v c);
   NewServer;
   RegisterCodec "application/json";
   RegisterCodec "application/json;charset=UTF-8";
   RegisterService "DatabaseOperation"
     {| Host := DatabaseHost c; ConnPort := DatabasePort c;
        Username := DatabaseUsername c |};
   NewRouter;
   Handle "/rpc";
   GoListenAndServe (":" ++ Port c);
   SignalNotify [SIGINT; SIGTERM]].

(** The effects that build the RPC endpoint or start the listener. *)
Definition isEndpointOrListener (e : Effect) : bool :=
  match e with
  | NewServer | RegisterCodec _ | RegisterService _ _ | NewRouter | Handle _
  | GoListenAndServe _ => true
  | _ => false
  end.

(** The terminal outcomes of the supervision loop. *)
Definition isFatal (e : Effect) : bool :=
  match e with LogFatal _ => true | _ => false end.

Definition isCaptured (e : Effect) : bool :=
  match e with
  | LogInfo line => String.prefix "Captured " line
  | _ => false
  end.

(** The two ways the loop ends the process, as effects. *)
Definition isTerminal (e : Effect) : bool := isFatal e || isCaptured e.

(** [logrus.ParseLevel] as the library defines it, for the examples. *)
Definition logrus_ParseLevel (lvl : string) : result Level :=
  if lvl =? "panic" then Ok PanicLevel
  else if lvl =? "fatal" then Ok FatalLevel
  else if lvl =? "error" then Ok ErrorLevel
  else if (lvl =? "warn") || (lvl =? "warning") then Ok WarnLevel
  else if lvl =? "info" then Ok InfoLevel
  else if lvl =? "debug" then Ok DebugLevel
  else Err (Foreign ("not a valid logrus Level: " ++ lvl)).

End stolonrpc.

(** ** Worked inputs *)

Module example.

Import stolonctl.

(** The text [{"retention":"7d"}], the quote made from its code. *)
Definition quote : string := String (ascii_of_nat 34) EmptyString.

Definition patch_json : bytes :=
  list_byte_of_string
    ("{" ++ quote ++ "retention" ++ quote ++ ":" ++ quote ++ "7d" ++ quote ++ "}").

(** A cluster whose configuration document is a [unit]: [PatchConfig] and
    [ReplaceConfig] accept everything. *)
Definition mycluster : cluster unit := {|
  Config := Ok tt;
  PatchConfig := fun _ => None;
  ReplaceConfig := fun _ => None
|}.

(** A store that knows the cluster [mycluster] only. *)
Definition store : client unit := {|
  getCluster := fun name =>
    if name =? "mycluster" then Ok mycluster
    else Err (Foreign "cluster not found");
  Clusters := Ok ["mycluster"]
|}.

Definition nocfg : config := {|
  storeEndpoints := ""; storeBackend := ""; storeCertFile := "";
  storeKeyFile := ""; storeCACertFile := ""
|}.

(** The variables after [app.Parse] chose [command] for [mycluster], the
    flag [--file] being [file]. *)
Definition parsed (command file : string) : Parsed := {|
  cmd := command;
  debug := false;
  cfg := nocfg;
  cmdClusterConfigName := if command =? "cluster config" then "mycluster" else "";
  cmdClusterPatchName := if command =? "cluster patch" then "mycluster" else "";
  cmdClusterPatchFile := if command =? "cluster patch" then file else "";
  cmdClusterReplaceName := if command =? "cluster replace" then "mycluster" else "";
  cmdClusterReplaceFile := if command =? "cluster replace" then file else "";
  cmdClusterStatusName := "";
  cmdClusterStatusMasterOnly := false;
  cmdClusterStatusOutputJson := false
|}.

(** A parser for the argument vectors of the examples: [cluster <command>],
    an optional [--file=./patch.json], and the cluster name. *)
Definition parse (args : Datatypes.list string) : result Parsed :=
  match args with
  | ["cluster"; c; "--file=./patch.json"; "mycluster"] =>
    Ok (parsed ("cluster " ++ c) "./patch.json")
  | ["cluster"; c; "mycluster"] => Ok (parsed ("cluster " ++ c) "")
  | ["--debug"; "cluster"; c; "mycluster"] =>
    Ok {| cmd := "cluster " ++ c; debug := true; cfg := nocfg;
          cmdClusterConfigName := "mycluster";
          cmdClusterPatchName := ""; cmdClusterPatchFile := "";
          cmdClusterReplaceName := ""; cmdClusterReplaceFile := "";
          cmdClusterStatusName := ""; cmdClusterStatusMasterOnly := false;
          cmdClusterStatusOutputJson := false |}
  | _ => Err (Foreign "unexpected arguments")
  end.

(** A world where [./patch.json] and the standard input both hold
    [patch_json], and the configuration document prints as [{}]. *)
Definition world : World unit := {|
  os_Stdin := Ok patch_json;
  ioutil_ReadFile := fun name =>
    if name =? "./patch.json" then Ok patch_json
    else Err (Foreign "no such file or directory");
  json_MarshalIndent := fun _ => Ok (list_byte_of_string "{}");
  kingpin_Parse := parse;
  newClient := fun _ => Ok store;
  status := fun _ _ _ _ => None
|}.

(** An RPC service environment with a log level [logrus] does not know. *)
Definition badLevel : stolonrpc.World := {|
  stolonrpc.envconfig_Process :=
    Ok {| stolonrpc.LogLevel := "verbose"; stolonrpc.Port := "8080";
          stolonrpc.DatabaseHost := "db"; stolonrpc.DatabasePort := "5432";
          stolonrpc.DatabaseUsername := "stolon" |};
  stolonrpc.log_ParseLevel := stolonrpc.logrus_ParseLevel;
  stolonrpc.selected := [stolonrpc.FromSignalChan stolonrpc.SIGTERM]
|}.

(** The same environment with the level [info]. *)
Definition goodLevel (recvs : Datatypes.list stolonrpc.Recv) : stolonrpc.World := {|
  stolonrpc.envconfig_Process :=
    Ok {| stolonrpc.LogLevel := "INFO"; stolonrpc.Port := "8080";
          stolonrpc.DatabaseHost := "db"; stolonrpc.DatabasePort := "5432";
          stolonrpc.DatabaseUsername := "stolon" |};
  stolonrpc.log_ParseLevel := stolonrpc.logrus_ParseLevel;
  stolonrpc.selected := recvs
|}.

(** An environment [envconfig.Process] rejects. *)
Definition noConfig : stolonrpc.World := {|
  stolonrpc.envconfig_Process := Err (Foreign "envconfig: bad value");
  stolonrpc.log_ParseLevel := stolonrpc.logrus_ParseLevel;
  stolonrpc.selected := []
|}.

End example.


(** ** Kinds of effects, and more worked inputs *)

Module observe.

(** The two client operations that change the stored configuration. *)
Definition isPatch (e : stolonctl.Effect) : bool :=
  match e with stolonctl.ClusterPatchConfig _ => true | _ => false end.

Definition isReplace (e : stolonctl.Effect) : bool :=
  match e with stolonctl.ClusterReplaceConfig _ => true | _ => false end.

Definition isMutation (e : stolonctl.Effect) : bool := isPatch e || isReplace e.

(** A write to the standard output. *)
Definition isStdout (e : stolonctl.Effect) : bool :=
  match e with stolonctl.Stdout _ => true | _ => false end.

(** A read of the standard input or of a file. *)
Definition isRead (e : stolonctl.Effect) : bool :=
  match e with
  | stolonctl.ReadAllStdin | stolonctl.ReadFile _ => true
  | _ => false
  end.

(** The three settings [setupLogging] makes on the logger. *)
Definition isLoggerSetup (e : stolonrpc.Effect) : bool :=
  match e with
  | stolonrpc.LogSetLevel _ | stolonrpc.LogSetFormatter
  | stolonrpc.LogSetOutput => true
  | _ => false
  end.

(** The example world with a standard input that cannot be read. *)
Definition brokenStdin : stolonctl.World unit := {|
  stolonctl.os_Stdin := Err (Foreign "read /dev/stdin: input/output error");
  stolonctl.ioutil_ReadFile := stolonctl.ioutil_ReadFile example.world;
  stolonctl.json_MarshalIndent := stolonctl.json_MarshalIndent example.world;
  stolonctl.kingpin_Parse := stolonctl.kingpin_Parse example.world;
  stolonctl.newClient := stolonctl.newClient example.world;
  stolonctl.status := stolonctl.status example.world
|}.

(** The example world with a store that cannot be reached. *)
Definition noStore : stolonctl.World unit := {|
  stolonctl.os_Stdin := stolonctl.os_Stdin example.world;
  stolonctl.ioutil_ReadFile := stolonctl.ioutil_ReadFile example.world;
  stolonctl.json_MarshalIndent := stolonctl.json_MarshalIndent example.world;
  stolonctl.kingpin_Parse := stolonctl.kingpin_Parse example.world;
  stolonctl.newClient := fun _ => Err (Foreign "store: connection refused");
  stolonctl.status := stolonctl.status example.world
|}.

End observe.

(** * Properties *)

(** ** Processes *)

Section ProcFacts.

Context {Effect : Type}.

Lemma bind_val {A B} (a : A) (t : list Effect) (k : A -> Proc Effect B) :
  bind (Val a, t) k = (fst (k a), t ++ snd (k a)).
Proof. simpl. destruct (k a); reflexivity. Qed.

Lemma bind_call {A B} (e : Effect) (a : A) (k : A -> Proc Effect B) :
  bind (call e a) k = (fst (k a), e :: snd (k a)).
Proof. unfold call. rewrite bind_val. reflexivity. Qed.

Lemma bind_ret {A B} (a : A) (k : A -> Proc Effect B) : bind (ret a) k = k a.
Proof. unfold ret. rewrite bind_val. destruct (k a); reflexivity. Qed.

(** A property of every effect of [m] and of every continuation holds of
    every effect of [bind m k]. *)
Lemma effects_bind_Forall {A B} (P : Effect -> Prop)
  (m : Proc Effect A) (k : A -> Proc Effect B) :
  Forall P (effects m) -> (forall a, Forall P (effects (k a))) ->
  Forall P (effects (bind m k)).
Proof.
  destruct m as [[a| | |] t]; simpl; intros Hm Hk; auto.
  specialize (Hk a). destruct (k a) as [r t']. simpl in *.
  apply Forall_app; split; assumption.
Qed.

(** The effects of [m] come first in [bind m k]. *)
Lemma effects_bind_prefix {A B} (m : Proc Effect A) (k : A -> Proc Effect B) :
  exists rest, effects (bind m k) = effects m ++ rest.
Proof.
  destruct m as [[a| | |] t]; simpl; try (exists []; rewrite app_nil_r; reflexivity).
  destruct (k a) as [r t']. exists t'. reflexivity.
Qed.

End ProcFacts.

(** ** The payload resolver [readFile] and its two callers *)

Module stolonctl_spec.

Import stolonctl.

Section Resolver.

Context {Cfg : Type}.
Variable w : World Cfg.

(** [readFile] always returns: it neither exits nor panics. *)
Lemma readFile_returns (fileName : string) (readStdin : bool) :
  exists r, outcome (readFile w fileName readStdin) = Val r.
Proof.
  unfold readFile.
  destruct readStdin, (fileName =? ""); simpl; eauto;
    [destruct (os_Stdin w) | destruct (ioutil_ReadFile w fileName)];
    simpl; eauto.
Qed.

(** Both sources, or none: the parameter error, no bytes, nothing read. *)
Lemma readFile_both_or_neither (fileName : string) (readStdin : bool) :
  (fileName <> "" /\ readStdin = true) \/ (fileName = "" /\ readStdin = false) ->
  readFile w fileName readStdin
  = (Val ([], BadParameter "need either file to read from or readStdin option"), []).
Proof.
  unfold readFile. intros [[Hf Hs] | [Hf Hs]]; subst.
  - apply String.eqb_neq in Hf. rewrite Hf. reflexivity.
  - reflexivity.
Qed.

(** A readable file: its content, untouched. *)
Lemma readFile_file (fileName : string) (data : bytes) :
  fileName <> "" -> ioutil_ReadFile w fileName = Ok data ->
  readFile w fileName false = (Val (data, None), [ReadFile fileName]).
Proof.
  unfold readFile. intros Hf Hr. apply String.eqb_neq in Hf.
  rewrite Hf. simpl. rewrite Hr. reflexivity.
Qed.

(** A readable standard input: its content, untouched. *)
Lemma readFile_stdin (data : bytes) :
  os_Stdin w = Ok data ->
  readFile w "" true = (Val (data, None), [ReadAllStdin]).
Proof.
  unfold readFile. intros Hr. simpl. rewrite Hr. reflexivity.
Qed.

End Resolver.

(** C1.  [readFile] succeeds (returns a nil error) only when exactly one of
    "fileName is not empty" and "readStdin is true" holds; when both hold or
    neither does it returns no bytes and the bad-parameter error whose
    message is "need either file to read from or readStdin option", and it
    reads nothing. *)
Theorem readFile_exactly_one_source :
  forall (Cfg : Type) (w : World Cfg) (fileName : string) (readStdin : bool),
    (forall data,
        outcome (readFile w fileName readStdin) = Val (data, None) ->
        (fileName <> "" /\ readStdin = false) \/ (fileName = "" /\ readStdin = true))
    /\
    ((fileName <> "" /\ readStdin = true) \/ (fileName = "" /\ readStdin = false) ->
     exists e,
       readFile w fileName readStdin = (Val ([], Some e), [])
       /\ IsBadParameter e = true
       /\ OrigMessage e = "need either file to read from or readStdin option").
Proof.
  intros Cfg w fileName readStdin. split.
  - intros data Hok.
    destruct readStdin, (String.eqb_spec fileName "") as [Hf | Hf]; auto.
    + rewrite readFile_both_or_neither in Hok by auto. discriminate.
    + rewrite readFile_both_or_neither in Hok by auto. discriminate.
  - intros Hbad. rewrite readFile_both_or_neither by assumption.
    eexists. split; [reflexivity | split; reflexivity].
Qed.

(** C1 at the four corners on the example world. *)
Lemma readFile_exactly_one_source_witness :
  (exists e,
      readFile example.world "./patch.json" true = (Val ([], Some e), [])
      /\ IsBadParameter e = true
      /\ OrigMessage e = "need either file to read from or readStdin option")
  /\ (exists e,
      readFile example.world "" false = (Val ([], Some e), [])
      /\ IsBadParameter e = true
      /\ OrigMessage e = "need either file to read from or readStdin option")
  /\ (("./patch.json" <> "" /\ false = false) \/ ("./patch.json" = "" /\ false = true))
  /\ (("" <> "" /\ true = false) \/ ("" = "" /\ true = true)).
Proof.
  split; [| split; [| split]].
  - apply (proj2 (readFile_exactly_one_source unit example.world "./patch.json" true)).
    left. split; [discriminate | reflexivity].
  - apply (proj2 (readFile_exactly_one_source unit example.world "" false)).
    right. split; reflexivity.
  - apply (proj1 (readFile_exactly_one_source unit example.world "./patch.json" false)
             example.patch_json).
    reflexivity.
  - apply (proj1 (readFile_exactly_one_source unit example.world "" true)
             example.patch_json).
    reflexivity.
Defined.

(** C4.  For a readable file, [readFile] returns the bytes of the file as
    they are, and [patchConfig] and [replaceConfig] hand exactly these bytes
    to [PatchConfig] and [ReplaceConfig] of the cluster: the calls they make
    are the read, [getCluster] and the one client operation, and no call to
    [PatchConfig] or [ReplaceConfig] carries other bytes. *)
Theorem file_payload_forwarded_unchanged :
  forall (Cfg : Type) (w : World Cfg) (clt : client Cfg)
         (clusterName fileName : string) (data : bytes),
    fileName <> "" ->
    ioutil_ReadFile w fileName = Ok data ->
    readFile w fileName false = (Val (data, None), [ReadFile fileName])
    /\ (forall c, getCluster clt clusterName = Ok c ->
          patchConfig w clt clusterName fileName false
          = (Val (Wrap (PatchConfig c data) ""),
             [ReadFile fileName; GetCluster clusterName; ClusterPatchConfig data])
          /\ replaceConfig w clt clusterName fileName false
             = (Val (Wrap (ReplaceConfig c data) ""),
                [ReadFile fileName; GetCluster clusterName; ClusterReplaceConfig data]))
    /\ (forall d,
          In (ClusterPatchConfig d)
             (effects (patchConfig w clt clusterName fileName false)) -> d = data)
    /\ (forall d,
          In (ClusterReplaceConfig d)
             (effects (replaceConfig w clt clusterName fileName false)) -> d = data).
Proof.
  intros Cfg w clt clusterName fileName data Hf Hr.
  pose proof (readFile_file w fileName data Hf Hr) as Hread.
  split; [exact Hread |].
  unfold patchConfig, replaceConfig. rewrite Hread, !bind_val.
  cbn [fst snd]. rewrite !bind_call.
  destruct (getCluster clt clusterName) as [c | e].
  - rewrite !bind_call. simpl. split; [| split].
    + intros c' Hc. inversion Hc; subst. split; reflexivity.
    + intros d [H | [H | [H | []]]]; inversion H; reflexivity.
    + intros d [H | [H | [H | []]]]; inversion H; reflexivity.
  - simpl. split; [| split].
    + intros c' Hc. discriminate.
    + intros d [H | [H | []]]; inversion H.
    + intros d [H | [H | []]]; inversion H.
Qed.

(** C4 on [patch --file=./patch.json mycluster]. *)
Lemma file_payload_forwarded_unchanged_witness :
  patchConfig example.world example.store "mycluster" "./patch.json" false
  = (Val None,
     [ReadFile "./patch.json"; GetCluster "mycluster";
      ClusterPatchConfig example.patch_json]).
Proof.
  apply (proj1 (proj1 (proj2
    (file_payload_forwarded_unchanged unit example.world example.store
       "mycluster" "./patch.json" example.patch_json
       ltac:(discriminate) eq_refl))
    example.mycluster eq_refl)).
Defined.

(** C5.  The same content [D] on the standard input and in a file resolves
    to the same payload, [D] itself: the result depends on the content and
    not on the channel. *)
Theorem stdin_and_file_resolve_alike :
  forall (Cfg : Type) (w : World Cfg) (fileName : string) (D : bytes),
    fileName <> "" ->
    os_Stdin w = Ok D ->
    ioutil_ReadFile w fileName = Ok D ->
    outcome (readFile w "" true) = outcome (readFile w fileName false)
    /\ outcome (readFile w "" true) = Val (D, None).
Proof.
  intros Cfg w fileName D Hf Hin Hfile.
  rewrite (readFile_stdin w D Hin), (readFile_file w fileName D Hf Hfile).
  split; reflexivity.
Qed.

(** C5 on the example world, where both channels hold [patch_json]. *)
Lemma stdin_and_file_resolve_alike_witness :
  outcome (readFile example.world "" true)
  = outcome (readFile example.world "./patch.json" false)
  /\ outcome (readFile example.world "" true) = Val (example.patch_json, None).
Proof.
  apply (stdin_and_file_resolve_alike unit example.world "./patch.json"
           example.patch_json);
    [discriminate | reflexivity | reflexivity].
Defined.

(** C7.  With no file and no stdin marker, [patchConfig] and
    [replaceConfig] return the bad-parameter error of [readFile], wrapped,
    and perform no effect at all: no [getCluster], no [PatchConfig], no
    [ReplaceConfig].  The payload is resolved before the client is used. *)
Theorem no_source_no_client_call :
  forall (Cfg : Type) (w : World Cfg) (clt : client Cfg) (clusterName : string),
    (exists e,
        patchConfig w clt clusterName "" false = (Val (Some e), [])
        /\ IsBadParameter e = true)
    /\ (exists e,
        replaceConfig w clt clusterName "" false = (Val (Some e), [])
        /\ IsBadParameter e = true)
    /\ existsb isClientCall (effects (patchConfig w clt clusterName "" false)) = false
    /\ existsb isClientCall (effects (replaceConfig w clt clusterName "" false)) = false.
Proof.
  intros Cfg w clt clusterName.
  unfold patchConfig, replaceConfig.
  rewrite (readFile_both_or_neither w "" false) by (right; split; reflexivity).
  simpl. repeat split; eexists; split; reflexivity.
Qed.

(** ** The dispatcher [run] *)

(** [os.Args[len(os.Args)-1]] is the last element of a vector that has
    one. *)
Lemma lastArg_snoc (front : Datatypes.list string) (a : string) :
  lastArg (front ++ [a]) = ret a.
Proof.
  unfold lastArg. rewrite length_app. simpl.
  replace (length front + 1 - 1) with (length front) by lia.
  rewrite nth_error_app2 by lia. rewrite Nat.sub_diag. reflexivity.
Qed.

(** After a successful parse and a successful [newClient], [run] has made
    three calls and is at its [switch]. *)
Lemma run_reaches_switch {Cfg : Type} (w : World Cfg)
  (prog : string) (args : Datatypes.list string) (p : Parsed) (ctl : client Cfg) :
  kingpin_Parse w args = Ok p ->
  newClient w (cfg p) = Ok ctl ->
  run w (prog :: args)
  = (call InitLoggerCLI tt ;;;
     call (AppParse args) tt ;;;
     call (NewClient (cfg p)) tt ;;;
     if cmd p =? "cluster config" then
       printConfig w ctl (cmdClusterConfigName p)
     else if cmd p =? "cluster patch" then
       a <- lastArg (prog :: args) ;;
       patchConfig w ctl (cmdClusterPatchName p) (cmdClusterPatchFile p) (a =? "-")
     else if cmd p =? "cluster replace" then
       a <- lastArg (prog :: args) ;;
       replaceConfig w ctl (cmdClusterReplaceName p) (cmdClusterReplaceFile p) (a =? "-")
     else if cmd p =? "cluster status" then
       call (Status (cmdClusterStatusName p) (cmdClusterStatusMasterOnly p)
                    (cmdClusterStatusOutputJson p))
            (status w ctl (cmdClusterStatusName p) (cmdClusterStatusMasterOnly p)
                    (cmdClusterStatusOutputJson p))
     else if cmd p =? "cluster list" then list ctl
     else ret None).
Proof.
  intros Hp Hc. unfold run. simpl. rewrite Hp. simpl. rewrite Hc. reflexivity.
Qed.

(** ** Logger initialisation *)

(** Splits a goal [Forall P (effects m)] along the binds and the branches
    of [m], and closes the leaves made of explicit effects. *)
Ltac forall_effects :=
  repeat first
    [ apply effects_bind_Forall; [| intros ?]
    | match goal with
      | |- Forall _ (effects (match ?x with _ => _ end)) => destruct x
      end
    | solve [ simpl; repeat constructor; discriminate ] ].

Section NoDebugInit.

Context {Cfg : Type}.
Variable w : World Cfg.

Lemma readFile_notDebugInit fileName readStdin :
  Forall notDebugInit (effects (readFile w fileName readStdin)).
Proof. unfold readFile, notDebugInit. forall_effects. Qed.

Lemma printConfig_notDebugInit clt clusterName :
  Forall notDebugInit (effects (printConfig w clt clusterName)).
Proof. unfold printConfig, notDebugInit. forall_effects. Qed.

Lemma patchConfig_notDebugInit clt clusterName patchFile readStdin :
  Forall notDebugInit (effects (patchConfig w clt clusterName patchFile readStdin)).
Proof.
  unfold patchConfig. apply effects_bind_Forall;
    [apply readFile_notDebugInit | intros r].
  unfold notDebugInit. forall_effects.
Qed.

Lemma replaceConfig_notDebugInit clt clusterName replaceFile readStdin :
  Forall notDebugInit
         (effects (replaceConfig w clt clusterName replaceFile readStdin)).
Proof.
  unfold replaceConfig. apply effects_bind_Forall;
    [apply readFile_notDebugInit | intros r].
  unfold notDebugInit. forall_effects.
Qed.

Lemma printClusters_notDebugInit clusters :
  Forall notDebugInit (effects (@printClusters clusters)).
Proof.
  induction clusters as [| c rest IH].
  - constructor.
  - change (printClusters (c :: rest))
      with (call (Stdout (fmt.Sprintln_string c)) tt ;;; printClusters rest).
    apply effects_bind_Forall; [| intros _; exact IH].
    simpl. repeat constructor. discriminate.
Qed.

Lemma list_notDebugInit (clt : client Cfg) :
  Forall notDebugInit (effects (list clt)).
Proof.
  unfold list. apply effects_bind_Forall; [| intros r].
  - simpl. repeat constructor. discriminate.
  - destruct r as [clusters | e]; [| constructor].
    apply effects_bind_Forall; [apply printClusters_notDebugInit | intros _].
    constructor.
Qed.

Lemma run_notDebugInit osArgs : Forall notDebugInit (effects (run w osArgs)).
Proof.
  unfold run. cbv zeta.
  apply effects_bind_Forall; [simpl; repeat constructor; discriminate | intros _].
  destruct osArgs as [| prog args]; [constructor |].
  apply effects_bind_Forall; [simpl; repeat constructor; discriminate | intros r].
  destruct r as [p | e]; [| constructor].
  apply effects_bind_Forall; [simpl; repeat constructor; discriminate | intros c].
  destruct c as [ctl | e]; [| constructor].
  destruct (cmd p =? "cluster config"); [apply printConfig_notDebugInit |].
  destruct (cmd p =? "cluster patch").
  { apply effects_bind_Forall; [| intros a; apply patchConfig_notDebugInit].
    unfold lastArg. destruct (nth_error _ _); constructor. }
  destruct (cmd p =? "cluster replace").
  { apply effects_bind_Forall; [| intros a; apply replaceConfig_notDebugInit].
    unfold lastArg. destruct (nth_error _ _); constructor. }
  destruct (cmd p =? "cluster status");
    [simpl; repeat constructor; discriminate |].
  destruct (cmd p =? "cluster list"); [apply list_notDebugInit | constructor].
Qed.

End NoDebugInit.

(** C10.  Whatever the argument vector and whatever [app.Parse] makes of
    it (also a parse that sets [debug]), the first thing [run] does is call
    [util.InitLoggerCLI], and neither [run] nor [main] ever calls
    [util.InitLoggerDebug]: [debug] is read before the arguments are
    parsed. *)
Theorem logger_init_is_always_cli :
  forall (Cfg : Type) (w : World Cfg) (osArgs : Datatypes.list string),
    (exists rest, effects (run w osArgs) = InitLoggerCLI :: rest)
    /\ (exists rest, effects (main w osArgs) = InitLoggerCLI :: rest)
    /\ ~ In InitLoggerDebug (effects (run w osArgs))
    /\ ~ In InitLoggerDebug (effects (main w osArgs)).
Proof.
  intros Cfg w osArgs.
  assert (Hrun : exists rest, effects (run w osArgs) = InitLoggerCLI :: rest).
  { unfold run. cbv zeta.
    destruct (effects_bind_prefix (call InitLoggerCLI tt)
      (fun _ : unit =>
         match osArgs with
         | [] => panic "slice bounds out of range"
         | _ :: args =>
           r <- call (AppParse args) (kingpin_Parse w args) ;;
           match r with
           | Err err => ret (Wrap (Some err) "")
           | Ok p =>
             c <- call (NewClient (cfg p)) (newClient w (cfg p)) ;;
             match c with
             | Err err => ret (Wrap (Some err) "")
             | Ok ctl =>
               if cmd p =? "cluster config" then
                 printConfig w ctl (cmdClusterConfigName p)
               else if cmd p =? "cluster patch" then
                 a <- lastArg osArgs ;;
                 patchConfig w ctl (cmdClusterPatchName p) (cmdClusterPatchFile p)
                   (a =? "-")
               else if cmd p =? "cluster replace" then
                 a <- lastArg osArgs ;;
                 replaceConfig w ctl (cmdClusterReplaceName p)
                   (cmdClusterReplaceFile p) (a =? "-")
               else if cmd p =? "cluster status" then
                 call (Status (cmdClusterStatusName p) (cmdClusterStatusMasterOnly p)
                              (cmdClusterStatusOutputJson p))
                      (status w ctl (cmdClusterStatusName p)
                              (cmdClusterStatusMasterOnly p)
                              (cmdClusterStatusOutputJson p))
               else if cmd p =? "cluster list" then list ctl
               else ret None
             end
           end
         end)) as [rest Hrest].
    exists rest. exact Hrest. }
  assert (Hmain : Forall notDebugInit (effects (main w osArgs))).
  { unfold main. apply effects_bind_Forall; [apply run_notDebugInit | intros err].
    destruct err; [| constructor].
    apply effects_bind_Forall; [| intros _; constructor].
    simpl. repeat constructor. discriminate. }
  split; [exact Hrun |]. split; [| split].
  - destruct Hrun as [rest Hrest]. unfold main.
    destruct (effects_bind_prefix (run w osArgs)
      (fun err : option error =>
         match err with
         | Some e => call (LogError e) tt ;;; exit 1
         | None => ret tt
         end)) as [rest' Hrest'].
    exists (rest ++ rest'). rewrite Hrest', Hrest. reflexivity.
  - intros Hin. pose proof (run_notDebugInit w osArgs) as H.
    rewrite Forall_forall in H. exact (H _ Hin eq_refl).
  - intros Hin. rewrite Forall_forall in Hmain. exact (Hmain _ Hin eq_refl).
Qed.

(** With [--debug] on the command line the logger is still the one of
    [InitLoggerCLI]. *)
Example debug_flag_has_no_effect :
  kingpin_Parse example.world ["--debug"; "cluster"; "config"; "mycluster"]
  = Ok {| cmd := "cluster config"; debug := true; cfg := example.nocfg;
          cmdClusterConfigName := "mycluster";
          cmdClusterPatchName := ""; cmdClusterPatchFile := "";
          cmdClusterReplaceName := ""; cmdClusterReplaceFile := "";
          cmdClusterStatusName := ""; cmdClusterStatusMasterOnly := false;
          cmdClusterStatusOutputJson := false |}
  /\ effects (run example.world
                  ["stolonctl"; "--debug"; "cluster"; "config"; "mycluster"])
     = [InitLoggerCLI;
        AppParse ["--debug"; "cluster"; "config"; "mycluster"];
        NewClient example.nocfg; GetCluster "mycluster"; ClusterConfig;
        Stdout ("[123 125]" ++ fmt.newline)].
Proof. split; reflexivity. Qed.

(** ** What [printConfig] prints *)

(** When the cluster, its configuration and the marshalling are all
    there, [printConfig] writes the [%v] form of the byte slice [data]. *)
Lemma printConfig_prints {Cfg : Type} (w : World Cfg) (clt : client Cfg)
  (clusterName : string) (c : cluster Cfg) (doc : Cfg) (data : bytes) :
  getCluster clt clusterName = Ok c ->
  Config c = Ok doc ->
  json_MarshalIndent w doc = Ok data ->
  printConfig w clt clusterName
  = (Val None,
     [GetCluster clusterName; ClusterConfig; Stdout (fmt.Sprintln_bytes data)]).
Proof.
  intros Hc Hd Hm. unfold printConfig. simpl. rewrite Hc. simpl.
  rewrite Hd. simpl. rewrite Hm. reflexivity.
Qed.

(** The [%v] form of a byte slice opens with a bracket, so it is not the
    text of a JSON object, which opens with a brace. *)
Lemma Sprintln_bytes_is_not_the_text (data : bytes) (text : string) :
  fmt.Sprintln_bytes data <> String "{" text.
Proof. unfold fmt.Sprintln_bytes, fmt.bytes_v. simpl. discriminate. Qed.

(** C6.  On a cluster whose configuration marshals to the two bytes of
    [{}], [printConfig] fetches the configuration and writes [[123 125]]
    and a newline to the standard output, the decimal values of the bytes,
    and not the JSON text [{}]. *)
Theorem printConfig_prints_byte_values :
  json_MarshalIndent example.world tt = Ok (list_byte_of_string "{}")
  /\ printConfig example.world example.store "mycluster"
     = (Val None,
        [GetCluster "mycluster"; ClusterConfig;
         Stdout ("[123 125]" ++ fmt.newline)])
  /\ ("[123 125]" ++ fmt.newline <> "{}" ++ fmt.newline)%string.
Proof. split; [reflexivity | split; [reflexivity | discriminate]]. Qed.

End stolonctl_spec.

(** ** The RPC service: startup and supervision *)

Module stolonrpc_spec.

Import stolonrpc.

(** One more nil value in front: one more receive, and nothing else. *)
Lemma superviseLoop_nil (rest : list Recv) :
  superviseLoop (FromErrChan None :: rest)
  = (outcome (superviseLoop rest),
     Select (FromErrChan None) :: effects (superviseLoop rest)).
Proof. simpl. destruct (superviseLoop rest); reflexivity. Qed.

Lemma superviseLoop_nils_then (n : nat) (rest : list Recv) :
  superviseLoop (nilFaults n ++ rest)
  = (outcome (superviseLoop rest),
     map Select (nilFaults n) ++ effects (superviseLoop rest)).
Proof.
  induction n as [| n IH].
  - simpl. destruct (superviseLoop rest); reflexivity.
  - change (nilFaults (S n) ++ rest)
      with (FromErrChan None :: (nilFaults n ++ rest)).
    rewrite superviseLoop_nil, IH. reflexivity.
Qed.

(** Every finite sequence of receives is a run of nil faults, followed by
    nothing, by a non-nil fault or by a signal. *)
Lemma recvs_shape (recvs : list Recv) :
  (exists n e rest, recvs = nilFaults n ++ FromErrChan (Some e) :: rest)
  \/ (exists n s rest, recvs = nilFaults n ++ FromSignalChan s :: rest)
  \/ (exists n, recvs = nilFaults n).
Proof.
  induction recvs as [| r recvs IH].
  - right. right. exists 0. reflexivity.
  - destruct r as [[e |] | s].
    + left. exists 0, e, recvs. reflexivity.
    + destruct IH as [(n & e & rest & H) | [(n & s & rest & H) | (n & H)]]; subst.
      * left. exists (S n), e, rest. reflexivity.
      * right. left. exists (S n), s, rest. reflexivity.
      * right. right. exists (S n). reflexivity.
    + right. left. exists 0, s, recvs. reflexivity.
Qed.

Lemma no_terminal_in_selects (l : list Recv) :
  filter isTerminal (map Select l) = [].
Proof. induction l as [| r l IH]; simpl; auto. Qed.

(** The three ways the loop can go, each with the whole of what it does. *)
Lemma superviseLoop_cases (recvs : list Recv) :
  (exists n e rest,
      recvs = nilFaults n ++ FromErrChan (Some e) :: rest
      /\ superviseLoop recvs
         = (Exited 1,
            map Select (nilFaults n) ++ [Select (FromErrChan (Some e)); LogFatal e]))
  \/ (exists n s rest,
      recvs = nilFaults n ++ FromSignalChan s :: rest
      /\ superviseLoop recvs
         = (Exited 0,
            map Select (nilFaults n)
            ++ [Select (FromSignalChan s); LogInfo (captured s)]))
  \/ (exists n,
      recvs = nilFaults n
      /\ superviseLoop recvs = (Blocked, map Select (nilFaults n))).
Proof.
  destruct (recvs_shape recvs)
    as [(n & e & rest & H) | [(n & s & rest & H) | (n & H)]]; subst.
  - left. exists n, e, rest. split; [reflexivity |].
    rewrite superviseLoop_nils_then. reflexivity.
  - right. left. exists n, s, rest. split; [reflexivity |].
    rewrite superviseLoop_nils_then. reflexivity.
  - right. right. exists n. split; [reflexivity |].
    rewrite <- (app_nil_r (nilFaults n)) at 1.
    rewrite superviseLoop_nils_then. simpl. rewrite app_nil_r. reflexivity.
Qed.

(** Over every sequence of receives, nil values included.  A non-nil
    value received from [errChan] ends
    the process with the fatal outcome (logged, exit code 1) and nothing is
    received after it; a signal received from [signalChan] is logged and
    ends the process with exit code 0; nil values received before either
    are dropped.  The loop never returns; the two outcomes exclude each
    other and at most one of them happens, once; while only nil values have
    arrived the loop is still waiting. *)
Lemma supervision_outcomes :
  forall recvs : list Recv,
    ((exists n e rest,
         recvs = nilFaults n ++ FromErrChan (Some e) :: rest
         /\ superviseLoop recvs
            = (Exited 1,
               map Select (nilFaults n)
               ++ [Select (FromErrChan (Some e)); LogFatal e]))
     \/ (exists n s rest,
         recvs = nilFaults n ++ FromSignalChan s :: rest
         /\ superviseLoop recvs
            = (Exited 0,
               map Select (nilFaults n)
               ++ [Select (FromSignalChan s); LogInfo (captured s)]))
     \/ (exists n,
         recvs = nilFaults n
         /\ superviseLoop recvs = (Blocked, map Select (nilFaults n))))
    /\ (forall u, outcome (superviseLoop recvs) <> Val u)
    /\ length (filter isTerminal (effects (superviseLoop recvs))) <= 1
    /\ (existsb isFatal (effects (superviseLoop recvs))
        && existsb isCaptured (effects (superviseLoop recvs)) = false).
Proof.
  intros recvs. split; [apply superviseLoop_cases |].
  assert (Hc : forall n, existsb isCaptured (map Select (nilFaults n)) = false)
    by (induction n; simpl; auto).
  assert (Hf : forall n, existsb isFatal (map Select (nilFaults n)) = false)
    by (induction n; simpl; auto).
  destruct (superviseLoop_cases recvs)
    as [(n & e & rest & _ & H) | [(n & s & rest & _ & H) | (n & _ & H)]];
    rewrite H; unfold effects, outcome; cbn [fst snd];
    rewrite ?filter_app, ?existsb_app, ?no_terminal_in_selects, ?Hc, ?Hf;
    (split; [discriminate |]).
  - split; [simpl; lia | reflexivity].
  - destruct s; split; [simpl; lia | reflexivity | simpl; lia | reflexivity].
  - split; [simpl; lia | reflexivity].
Qed.

(** C3.  The only value ever sent on [errChan] is what
    [http.ListenAndServe] returned, which is never nil; so the first thing
    a [select] receives is a non-nil fault or a signal.  If it is a fault,
    the process logs it and ends with the fatal outcome (exit code 1); if
    it is a signal, the process logs the signal and exits with code 0.  In
    both cases nothing more is received from either channel: what may
    arrive afterwards changes nothing.  The loop does not return, the two
    outcomes exclude each other, and exactly one of them happens, once. *)
Theorem first_receive_ends_the_process :
  forall (r : Recv) (rest : list Recv),
    r <> FromErrChan None ->
    ((exists e,
         r = FromErrChan (Some e)
         /\ superviseLoop (r :: rest) = (Exited 1, [Select r; LogFatal e]))
     \/ (exists s,
         r = FromSignalChan s
         /\ superviseLoop (r :: rest)
            = (Exited 0, [Select r; LogInfo (captured s)])))
    /\ (forall rest', superviseLoop (r :: rest') = superviseLoop (r :: rest))
    /\ (forall u, outcome (superviseLoop (r :: rest)) <> Val u)
    /\ length (filter isTerminal (effects (superviseLoop (r :: rest)))) = 1
    /\ (existsb isFatal (effects (superviseLoop (r :: rest)))
        = negb (existsb isCaptured (effects (superviseLoop (r :: rest))))).
Proof.
  intros r rest Hr.
  destruct r as [[e |] | s]; [| exfalso; apply Hr; reflexivity |].
  - split; [left; exists e; split; reflexivity |].
    split; [reflexivity |]. split; [discriminate |]. split; reflexivity.
  - split; [right; exists s; split; reflexivity |].
    split; [reflexivity |]. split; [discriminate |].
    destruct s; split; reflexivity.
Qed.

(** C3 on a listener that cannot bind, a signal coming after it: the
    process ends on the fault and the signal is not received. *)
Lemma first_receive_ends_the_process_witness :
  superviseLoop
    [FromErrChan (Some (Foreign "listen tcp :8080: bind: address already in use"));
     FromSignalChan SIGTERM]
  = superviseLoop
      [FromErrChan (Some (Foreign "listen tcp :8080: bind: address already in use"))]
  /\ length (filter isTerminal
               (effects (superviseLoop
                  [FromErrChan
                     (Some (Foreign "listen tcp :8080: bind: address already in use"));
                   FromSignalChan SIGTERM]))) = 1.
Proof.
  pose proof (first_receive_ends_the_process
                (FromErrChan
                   (Some (Foreign "listen tcp :8080: bind: address already in use")))
                [FromSignalChan SIGTERM]
                ltac:(discriminate)) as (_ & Hrest & _ & Hone & _).
  split; [symmetry; exact (Hrest []) | exact Hone].
Defined.

(** The same at the level of the process: with the configuration read, a
    first receive that is a signal ends [main] with code 0 and one that is
    a non-nil fault ends it with code 1, the listener having been
    started. *)
Example main_ends_on_the_first_receive :
  outcome (main (example.goodLevel [FromSignalChan SIGTERM;
                                    FromErrChan (Some (Foreign "closed"))]))
  = Exited 0
  /\ outcome (main (example.goodLevel [FromErrChan (Some (Foreign "closed"));
                                       FromSignalChan SIGTERM]))
     = Exited 1.
Proof. split; reflexivity. Qed.

(** C9.  A nil value received from [errChan] adds the receive to what
    the loop does and nothing else, no fault line and no exit: the loop goes
    on with what comes next, and on nil values alone it is still waiting.
    The process ends with code 1 only after a non-nil value was received
    from [errChan], which is the one it logs, and with code 0 only after a
    signal was received; a fault is logged only for a non-nil value that
    was received. *)
Theorem nil_fault_keeps_waiting :
  (forall rest : list Recv,
      superviseLoop (FromErrChan None :: rest)
      = (outcome (superviseLoop rest),
         Select (FromErrChan None) :: effects (superviseLoop rest)))
  /\ (forall n : nat,
      superviseLoop (nilFaults n) = (Blocked, map Select (nilFaults n)))
  /\ (forall (recvs : list Recv) (code : Z),
      outcome (superviseLoop recvs) = Exited code ->
      (code = 1%Z
       /\ exists e, In (FromErrChan (Some e)) recvs
                    /\ In (LogFatal e) (effects (superviseLoop recvs)))
      \/ (code = 0%Z /\ exists s, In (FromSignalChan s) recvs))
  /\ (forall (recvs : list Recv) (e : error),
      In (LogFatal e) (effects (superviseLoop recvs)) ->
      In (FromErrChan (Some e)) recvs).
Proof.
  split; [exact superviseLoop_nil |]. split; [| split].
  - intros n.
    destruct (superviseLoop_cases (nilFaults n))
      as [(k & e & rest & Hs & _) | [(k & s & rest & Hs & _) | (k & Hs & H)]].
    + exfalso.
      assert (Hin : In (FromErrChan (Some e)) (nilFaults n))
        by (rewrite Hs; apply in_or_app; right; left; reflexivity).
      apply repeat_spec in Hin. discriminate.
    + exfalso.
      assert (Hin : In (FromSignalChan s) (nilFaults n))
        by (rewrite Hs; apply in_or_app; right; left; reflexivity).
      apply repeat_spec in Hin. discriminate.
    + rewrite H, <- Hs. reflexivity.
  - intros recvs code Hout.
    destruct (superviseLoop_cases recvs)
      as [(n & e & rest & Hs & H) | [(n & s & rest & Hs & H) | (n & Hs & H)]];
      rewrite H in *; unfold outcome, effects in *; cbn [fst snd] in *.
    + left. inversion Hout. split; [reflexivity |]. exists e. split.
      * rewrite Hs. apply in_or_app. right. left. reflexivity.
      * apply in_or_app. right. right. left. reflexivity.
    + right. inversion Hout. split; [reflexivity |]. exists s.
      rewrite Hs. apply in_or_app. right. left. reflexivity.
    + discriminate.
  - intros recvs e Hin.
    destruct (superviseLoop_cases recvs)
      as [(n & e' & rest & Hs & H) | [(n & s & rest & Hs & H) | (n & Hs & H)]];
      rewrite H in Hin; unfold effects in Hin; cbn [snd] in Hin;
      try apply in_app_or in Hin;
      try (destruct Hin as [Hin | Hin];
           [apply in_map_iff in Hin; destruct Hin as (r & Hr & _); discriminate |]).
    + destruct Hin as [Hin | [Hin | []]]; inversion Hin; subst.
      apply in_or_app. right. left. reflexivity.
    + destruct Hin as [Hin | [Hin | []]]; inversion Hin.
    + apply in_map_iff in Hin. destruct Hin as (r & Hr & _). discriminate.
Qed.

(** C9 on a nil fault followed by an interrupt, and on a real fault. *)
Lemma nil_fault_keeps_waiting_witness :
  ((0%Z = 1%Z
    /\ exists e, In (FromErrChan (Some e)) [FromErrChan None; FromSignalChan SIGINT]
                 /\ In (LogFatal e)
                       (effects (superviseLoop
                                   [FromErrChan None; FromSignalChan SIGINT])))
   \/ (0%Z = 0%Z
       /\ exists s, In (FromSignalChan s) [FromErrChan None; FromSignalChan SIGINT]))
  /\ In (FromErrChan (Some (Foreign "listen tcp :8080: bind: address already in use")))
        [FromErrChan None;
         FromErrChan (Some (Foreign "listen tcp :8080: bind: address already in use"))].
Proof.
  split.
  - apply (proj1 (proj2 (proj2 nil_fault_keeps_waiting))
             [FromErrChan None; FromSignalChan SIGINT] 0%Z).
    reflexivity.
  - apply (proj2 (proj2 (proj2 nil_fault_keeps_waiting))
             [FromErrChan None;
              FromErrChan (Some (Foreign "listen tcp :8080: bind: address already in use"))]).
    simpl. right. right. left. reflexivity.
Defined.

(** ** Startup *)

(** [setupLogging] returns, with the error of [log.ParseLevel] if any. *)
Lemma setupLogging_returns (w : World) (level : string) :
  exists t,
    setupLogging w level
    = (Val (match log_ParseLevel w (ToLower level) with
            | Err err => Some err
            | Ok _ => None
            end), t).
Proof.
  unfold setupLogging. cbv zeta.
  destruct (ToLower level =? "debug"), (log_ParseLevel w (ToLower level));
    simpl; eauto.
Qed.

(** Once [GetConfig] succeeded, [main] goes all the way to the supervision
    loop, whatever [setupLogging] returned. *)
Lemma main_after_GetConfig (w : World) (c : Config) :
  envconfig_Process w = Ok c ->
  main w
  = (outcome (superviseLoop (selected w)),
     EnvconfigProcess :: effects (setupLogging w (LogLevel c))
     ++ startupEffects c ++ effects (superviseLoop (selected w))).
Proof.
  intros Hc. unfold main, GetConfig. simpl. rewrite Hc. simpl.
  destruct (setupLogging_returns w (LogLevel c)) as [t Ht]. rewrite Ht.
  destruct (log_ParseLevel w (ToLower (LogLevel c))); simpl;
    destruct (superviseLoop (selected w)); simpl; rewrite ?app_nil_r;
    reflexivity.
Qed.

(** A level [log.ParseLevel] rejects makes [setupLogging] return the error,
    and [main] builds the endpoint and starts the listener all the same. *)
Lemma bad_level_startup_goes_on (w : World) (c : Config) (e : error) :
  envconfig_Process w = Ok c ->
  log_ParseLevel w (ToLower (LogLevel c)) = Err e ->
  outcome (setupLogging w (LogLevel c)) = Val (Some e)
  /\ In NewServer (effects (main w))
  /\ In (GoListenAndServe (":" ++ Port c)) (effects (main w)).
Proof.
  intros Hc He. rewrite (main_after_GetConfig w c Hc).
  destruct (setupLogging_returns w (LogLevel c)) as [t Ht].
  rewrite Ht, He. unfold effects, outcome. cbn [fst snd].
  split; [reflexivity |].
  split; right; apply in_or_app; right; apply in_or_app; left;
    unfold startupEffects; simpl; tauto.
Qed.

(** When [GetConfig] fails, [main] drops the error and dereferences the nil
    pointer: the process panics before anything else is done. *)
Lemma GetConfig_failure_panics (w : World) (e : error) :
  envconfig_Process w = Err e ->
  main w
  = (Panicked "invalid memory address or nil pointer dereference",
     [EnvconfigProcess]).
Proof. intros He. unfold main, GetConfig. simpl. rewrite He. reflexivity. Qed.

(** On an environment [envconfig.Process] rejects, the process panics
    right after the attempt. *)
Example rejected_environment_panics :
  main example.noConfig
  = (Panicked "invalid memory address or nil pointer dereference",
     [EnvconfigProcess]).
Proof. apply (GetConfig_failure_panics example.noConfig _ eq_refl). Qed.

(** C2.  With [STOLONRPC_LOG_LEVEL=verbose], a severity [logrus] does not
    know, [setupLogging] returns the error of [log.ParseLevel], and [main]
    nevertheless builds the RPC endpoint, starts the listener on [:8080]
    and runs the supervision loop until the signal: startup is not
    aborted. *)
Theorem unknown_log_level_does_not_abort_startup :
  outcome (setupLogging example.badLevel "verbose")
  = Val (Some (Foreign "not a valid logrus Level: verbose"))
  /\ main example.badLevel
     = (Exited 0,
        [EnvconfigProcess;
         LogInfo "Start with config: &{LogLevel:verbose Port:8080 DatabaseHost:db DatabasePort:5432 DatabaseUsername:stolon}";
         NewServer;
         RegisterCodec "application/json";
         RegisterCodec "application/json;charset=UTF-8";
         RegisterService "DatabaseOperation"
           {| Host := "db"; ConnPort := "5432"; Username := "stolon" |};
         NewRouter;
         Handle "/rpc";
         GoListenAndServe ":8080";
         SignalNotify [SIGINT; SIGTERM];
         Select (FromSignalChan SIGTERM);
         LogInfo "Captured terminated. Exiting..."])
  /\ existsb isEndpointOrListener (effects (main example.badLevel)) = true.
Proof. split; [reflexivity | split; reflexivity]. Qed.

(** With a level [logrus] knows, the same run sets the logger up first. *)
Example known_log_level_startup :
  effects (main (example.goodLevel [FromSignalChan SIGTERM]))
  = [EnvconfigProcess; LogSetLevel InfoLevel; LogSetFormatter; LogSetOutput]
    ++ startupEffects
         {| LogLevel := "INFO"; Port := "8080"; DatabaseHost := "db";
            DatabasePort := "5432"; DatabaseUsername := "stolon" |}
    ++ [Select (FromSignalChan SIGTERM); LogInfo "Captured terminated. Exiting..."]
  /\ outcome (main (example.goodLevel [FromSignalChan SIGTERM])) = Exited 0.
Proof. split; reflexivity. Qed.

End stolonrpc_spec.

(** ** More on the payload resolver *)

Module stolonctl_more.

Import stolonctl observe.

(** Every way [readFile] can go, with the whole of what it returns and
    does. *)
Lemma readFile_cases {Cfg : Type} (w : World Cfg)
  (fileName : string) (readStdin : bool) :
  (((fileName <> "" /\ readStdin = true) \/ (fileName = "" /\ readStdin = false))
   /\ readFile w fileName readStdin
      = (Val ([], BadParameter "need either file to read from or readStdin option"),
         []))
  \/ (fileName = "" /\ readStdin = true
      /\ ((exists d, os_Stdin w = Ok d
                     /\ readFile w fileName readStdin
                        = (Val (d, None), [ReadAllStdin]))
          \/ (exists e, os_Stdin w = Err e
                        /\ readFile w fileName readStdin
                           = (Val ([], Some (TraceErr e "cannot read config file from stdin")),
                              [ReadAllStdin]))))
  \/ (fileName <> "" /\ readStdin = false
      /\ ((exists d, ioutil_ReadFile w fileName = Ok d
                     /\ readFile w fileName readStdin
                        = (Val (d, None), [ReadFile fileName]))
          \/ (exists e, ioutil_ReadFile w fileName = Err e
                        /\ readFile w fileName readStdin
                           = (Val ([], Some (TraceErr e "can not read file")),
                              [ReadFile fileName])))).
Proof.
  unfold readFile.
  destruct readStdin, (String.eqb_spec fileName "") as [Hf | Hf].
  - right. left. subst. split; [reflexivity | split; [reflexivity |]]. simpl.
    destruct (os_Stdin w) as [d | e]; [left; exists d | right; exists e];
      split; reflexivity.
  - left. split; [left; split; [assumption | reflexivity] | reflexivity].
  - left. split; [right; split; [assumption | reflexivity] | reflexivity].
  - right. right. split; [assumption | split; [reflexivity |]]. simpl.
    destruct (ioutil_ReadFile w fileName) as [d | e];
      [left; exists d | right; exists e]; split; reflexivity.
Qed.

(** X1.  [readFile] always returns, makes at most one read, and is all or
    nothing: whenever the error it returns is not nil, the bytes it returns
    are none. *)
Theorem readFile_all_or_nothing :
  forall (Cfg : Type) (w : World Cfg) (fileName : string) (readStdin : bool),
  exists (data : bytes) (err : option error) (t : Datatypes.list Effect),
    readFile w fileName readStdin = (Val (data, err), t)
    /\ (err <> None -> data = [])
    /\ length t <= 1
    /\ forallb isRead t = true.
Proof.
  intros Cfg w fileName readStdin.
  destruct (readFile_cases w fileName readStdin)
    as [[_ H] | [(_ & _ & [(d & _ & H) | (e & _ & H)])
              | (_ & _ & [(d & _ & H) | (e & _ & H)])]];
    rewrite H; do 3 eexists; (split; [reflexivity |]);
    (split; [try reflexivity; intros Hn; exfalso; apply Hn; reflexivity |]);
    split; simpl; auto.
Qed.

(** X2.  [readFile] returns the bytes [data] with a nil error exactly when
    one source was chosen and reading it gave [data]: a non-empty file name
    without the stdin flag and a readable file, or the stdin flag without
    a file name and a readable standard input. *)
Theorem readFile_succeeds_iff :
  forall (Cfg : Type) (w : World Cfg) (fileName : string) (readStdin : bool)
         (data : bytes),
    outcome (readFile w fileName readStdin) = Val (data, None)
    <-> ((fileName <> "" /\ readStdin = false /\ ioutil_ReadFile w fileName = Ok data)
         \/ (fileName = "" /\ readStdin = true /\ os_Stdin w = Ok data)).
Proof.
  intros Cfg w fileName readStdin data. split.
  - intros Hok.
    destruct (readFile_cases w fileName readStdin)
      as [[_ H] | [(Hf & Hs & [(d & Hr & H) | (e & _ & H)])
                | (Hf & Hs & [(d & Hr & H) | (e & _ & H)])]];
      rewrite H in Hok; unfold outcome in Hok; cbn [fst] in Hok;
      try discriminate; inversion Hok; subst d; auto.
  - intros [(Hf & Hs & Hr) | (Hf & Hs & Hr)]; subst.
    + rewrite (stolonctl_spec.readFile_file w fileName data Hf Hr). reflexivity.
    + rewrite (stolonctl_spec.readFile_stdin w data Hr). reflexivity.
Qed.

(** X3.  A read that fails gives no bytes and the error of the read under
    a wrapper that names the channel: "cannot read config file from stdin"
    for the standard input, "can not read file" for a file; the error of the
    read is still the one found under the wrapper. *)
Theorem readFile_read_faults :
  forall (Cfg : Type) (w : World Cfg) (fileName : string) (e : error),
    (os_Stdin w = Err e ->
     readFile w "" true
     = (Val ([], Some (TraceErr e "cannot read config file from stdin")),
        [ReadAllStdin]))
    /\ (fileName <> "" -> ioutil_ReadFile w fileName = Err e ->
        readFile w fileName false
        = (Val ([], Some (TraceErr e "can not read file")), [ReadFile fileName]))
    /\ Unwrap (TraceErr e "cannot read config file from stdin") = Unwrap e
    /\ Unwrap (TraceErr e "can not read file") = Unwrap e.
Proof.
  intros Cfg w fileName e. split; [| split; [| split; reflexivity]].
  - intros Hr. unfold readFile. simpl. rewrite Hr. reflexivity.
  - intros Hf Hr. unfold readFile. apply String.eqb_neq in Hf. rewrite Hf.
    simpl. rewrite Hr. reflexivity.
Qed.

(** X3 on an unreadable standard input and on a file that is not there. *)
Lemma readFile_read_faults_witness :
  readFile brokenStdin "" true
  = (Val ([], Some (TraceErr (Foreign "read /dev/stdin: input/output error")
                             "cannot read config file from stdin")),
     [ReadAllStdin])
  /\ readFile example.world "./missing.json" false
     = (Val ([], Some (TraceErr (Foreign "no such file or directory")
                                "can not read file")),
        [ReadFile "./missing.json"]).
Proof.
  split.
  - apply (proj1 (readFile_read_faults unit brokenStdin "x"
                    (Foreign "read /dev/stdin: input/output error"))).
    reflexivity.
  - apply (proj1 (proj2 (readFile_read_faults unit example.world "./missing.json"
                           (Foreign "no such file or directory")))).
    + discriminate.
    + reflexivity.
Defined.

(** X4.  [readFile] touches the chosen channel only: with the stdin flag it
    reads no file, without it it does not read the standard input, and the
    only file it ever reads is the one named. *)
Theorem readFile_reads_the_chosen_channel_only :
  forall (Cfg : Type) (w : World Cfg) (fileName : string) (readStdin : bool),
    (readStdin = true ->
     forall name, ~ In (ReadFile name) (effects (readFile w fileName readStdin)))
    /\ (readStdin = false ->
        ~ In ReadAllStdin (effects (readFile w fileName readStdin)))
    /\ (forall name,
           In (ReadFile name) (effects (readFile w fileName readStdin)) ->
           name = fileName /\ fileName <> "").
Proof.
  intros Cfg w fileName readStdin.
  assert (Hstdin : forall name, ~ In (ReadFile name) [ReadAllStdin])
    by (intros name [Hin | []]; discriminate).
  assert (Hfile : ~ In ReadAllStdin [ReadFile fileName])
    by (intros [Hin | []]; discriminate).
  destruct (readFile_cases w fileName readStdin)
    as [[_ H] | [(Hf & Hs & [(d & _ & H) | (e & _ & H)])
              | (Hf & Hs & [(d & _ & H) | (e & _ & H)])]];
    rewrite H; unfold effects; cbn [snd]; (split; [| split]).
  - intros _ name [].
  - intros _ [].
  - intros name [].
  - intros _. exact Hstdin.
  - intros Hc. rewrite Hs in Hc. discriminate.
  - intros name Hin. exfalso. exact (Hstdin name Hin).
  - intros _. exact Hstdin.
  - intros Hc. rewrite Hs in Hc. discriminate.
  - intros name Hin. exfalso. exact (Hstdin name Hin).
  - intros Hc. rewrite Hs in Hc. discriminate.
  - intros _. exact Hfile.
  - intros name [Hin | []]. inversion Hin; subst. split; [reflexivity | assumption].
  - intros Hc. rewrite Hs in Hc. discriminate.
  - intros _. exact Hfile.
  - intros name [Hin | []]. inversion Hin; subst. split; [reflexivity | assumption].
Qed.

(** X4 on the example world: the file is read and the standard input is
    left alone, and the other way round. *)
Lemma readFile_reads_the_chosen_channel_only_witness :
  ~ In ReadAllStdin (effects (readFile example.world "./patch.json" false))
  /\ ~ In (ReadFile "./patch.json") (effects (readFile example.world "" true)).
Proof.
  split.
  - apply (proj1 (proj2 (readFile_reads_the_chosen_channel_only unit
                           example.world "./patch.json" false))).
    reflexivity.
  - apply (proj1 (readFile_reads_the_chosen_channel_only unit
                    example.world "" true)).
    reflexivity.
Defined.

(** ** More on [patchConfig], [replaceConfig], [printConfig] and [list] *)

(** [patchConfig] in terms of what [readFile] returned. *)
Lemma patchConfig_after_read {Cfg : Type} (w : World Cfg) (clt : client Cfg)
  (clusterName patchFile : string) (readStdin : bool)
  (data : bytes) (err : option error) (t : Datatypes.list Effect) :
  readFile w patchFile readStdin = (Val (data, err), t) ->
  patchConfig w clt clusterName patchFile readStdin
  = match err with
    | Some e => (Val (Some (TraceErr e "")), t)
    | None =>
      match getCluster clt clusterName with
      | Err e => (Val (Some (TraceErr e "")), t ++ [GetCluster clusterName])
      | Ok c =>
        (Val (Wrap (PatchConfig c data) ""),
         t ++ [GetCluster clusterName; ClusterPatchConfig data])
      end
    end.
Proof.
  intros H. unfold patchConfig. rewrite H, bind_val. cbn [fst snd].
  destruct err as [e |]; [simpl; rewrite app_nil_r; reflexivity |].
  rewrite bind_call. destruct (getCluster clt clusterName) as [c | e]; simpl;
    reflexivity.
Qed.

(** [replaceConfig] in terms of what [readFile] returned. *)
Lemma replaceConfig_after_read {Cfg : Type} (w : World Cfg) (clt : client Cfg)
  (clusterName replaceFile : string) (readStdin : bool)
  (data : bytes) (err : option error) (t : Datatypes.list Effect) :
  readFile w replaceFile readStdin = (Val (data, err), t) ->
  replaceConfig w clt clusterName replaceFile readStdin
  = match err with
    | Some e => (Val (Some (TraceErr e "")), t)
    | None =>
      match getCluster clt clusterName with
      | Err e => (Val (Some (TraceErr e "")), t ++ [GetCluster clusterName])
      | Ok c =>
        (Val (Wrap (ReplaceConfig c data) ""),
         t ++ [GetCluster clusterName; ClusterReplaceConfig data])
      end
    end.
Proof.
  intros H. unfold replaceConfig. rewrite H, bind_val. cbn [fst snd].
  destruct err as [e |]; [simpl; rewrite app_nil_r; reflexivity |].
  rewrite bind_call. destruct (getCluster clt clusterName) as [c | e]; simpl;
    reflexivity.
Qed.

(** [readFile] in the shape the two lemmas above take. *)
Lemma readFile_shape {Cfg : Type} (w : World Cfg)
  (fileName : string) (readStdin : bool) :
  exists data err t,
    readFile w fileName readStdin = (Val (data, err), t)
    /\ existsb isClientCall t = false
    /\ existsb isMutation t = false.
Proof.
  destruct (readFile_cases w fileName readStdin)
    as [[_ H] | [(_ & _ & [(d & _ & H) | (e & _ & H)])
              | (_ & _ & [(d & _ & H) | (e & _ & H)])]];
    rewrite H; do 3 eexists; (split; [reflexivity | split; reflexivity]).
Qed.

(** X5.  A payload read from the standard input goes to the client as it
    is: with the stdin flag, no file name, a readable standard input and a
    cluster the store knows, [patchConfig] and [replaceConfig] read the
    input, get the cluster and call [PatchConfig], [ReplaceConfig] with
    exactly the bytes read; what that call returns is what they return,
    wrapped when it is an error. *)
Theorem stdin_payload_forwarded_unchanged :
  forall (Cfg : Type) (w : World Cfg) (clt : client Cfg) (clusterName : string)
         (data : bytes) (c : cluster Cfg),
    os_Stdin w = Ok data ->
    getCluster clt clusterName = Ok c ->
    patchConfig w clt clusterName "" true
    = (Val (Wrap (PatchConfig c data) ""),
       [ReadAllStdin; GetCluster clusterName; ClusterPatchConfig data])
    /\ replaceConfig w clt clusterName "" true
       = (Val (Wrap (ReplaceConfig c data) ""),
          [ReadAllStdin; GetCluster clusterName; ClusterReplaceConfig data]).
Proof.
  intros Cfg w clt clusterName data c Hin Hc.
  pose proof (stolonctl_spec.readFile_stdin w data Hin) as Hread.
  rewrite (patchConfig_after_read w clt clusterName "" true _ _ _ Hread).
  rewrite (replaceConfig_after_read w clt clusterName "" true _ _ _ Hread).
  rewrite Hc. split; reflexivity.
Qed.

(** X5 on [replace mycluster -] with [patch_json] on the standard input. *)
Lemma stdin_payload_forwarded_unchanged_witness :
  replaceConfig example.world example.store "mycluster" "" true
  = (Val None,
     [ReadAllStdin; GetCluster "mycluster";
      ClusterReplaceConfig example.patch_json]).
Proof.
  apply (proj2 (stdin_payload_forwarded_unchanged unit example.world
                  example.store "mycluster" example.patch_json example.mycluster
                  eq_refl eq_refl)).
Defined.

(** X6.  When the payload cannot be resolved, for whatever reason (no
    source, two sources, a read that fails), [patchConfig] and
    [replaceConfig] return an error that is the error of [readFile] under
    its wrappers: the same error is found by [Unwrap], and it is a
    bad-parameter error exactly when the one of [readFile] is.  They do
    nothing beyond what [readFile] did and call no operation of the
    client. *)
Theorem unresolved_payload_reaches_no_client :
  forall (Cfg : Type) (w : World Cfg) (clt : client Cfg)
         (clusterName fileName : string) (readStdin : bool)
         (data : bytes) (err : error),
    outcome (readFile w fileName readStdin) = Val (data, Some err) ->
    (exists e,
        patchConfig w clt clusterName fileName readStdin
        = (Val (Some e), effects (readFile w fileName readStdin))
        /\ Unwrap e = Unwrap err
        /\ IsBadParameter e = IsBadParameter err)
    /\ (exists e,
        replaceConfig w clt clusterName fileName readStdin
        = (Val (Some e), effects (readFile w fileName readStdin))
        /\ Unwrap e = Unwrap err
        /\ IsBadParameter e = IsBadParameter err)
    /\ existsb isClientCall
         (effects (patchConfig w clt clusterName fileName readStdin)) = false
    /\ existsb isClientCall
         (effects (replaceConfig w clt clusterName fileName readStdin)) = false.
Proof.
  intros Cfg w clt clusterName fileName readStdin data err Hout.
  destruct (readFile_shape w fileName readStdin) as (d & e & t & H & Hc & _).
  rewrite H in Hout. unfold outcome in Hout. cbn [fst] in Hout.
  inversion Hout; subst d e.
  rewrite (patchConfig_after_read w clt clusterName fileName readStdin _ _ _ H).
  rewrite (replaceConfig_after_read w clt clusterName fileName readStdin _ _ _ H).
  rewrite H. unfold effects. cbn [snd].
  split; [| split; [| split; assumption]];
    eexists; (split; [reflexivity | split; reflexivity]).
Qed.

(** X6 on a file that is not there: the error of the read is the one under
    what [patchConfig] returns, and the store is not asked. *)
Lemma unresolved_payload_reaches_no_client_witness :
  (exists e,
      patchConfig example.world example.store "mycluster" "./missing.json" false
      = (Val (Some e), effects (readFile example.world "./missing.json" false))
      /\ Unwrap e = Foreign "no such file or directory"
      /\ IsBadParameter e = false)
  /\ existsb isClientCall
       (effects (patchConfig example.world example.store "mycluster"
                   "./missing.json" false)) = false.
Proof.
  pose proof (unresolved_payload_reaches_no_client unit example.world
                example.store "mycluster" "./missing.json" false []
                (TraceErr (Foreign "no such file or directory")
                          "can not read file")
                eq_refl) as (Hpatch & _ & Hcall & _).
  split; [exact Hpatch | exact Hcall].
Defined.

(** X7.  When the store does not give the cluster, [patchConfig] and
    [replaceConfig] return the error of [getCluster] under a wrapper, after
    the read and the lookup, and change nothing: neither [PatchConfig] nor
    [ReplaceConfig] is called. *)
Theorem unknown_cluster_changes_nothing :
  forall (Cfg : Type) (w : World Cfg) (clt : client Cfg)
         (clusterName fileName : string) (readStdin : bool)
         (data : bytes) (e : error),
    outcome (readFile w fileName readStdin) = Val (data, None) ->
    getCluster clt clusterName = Err e ->
    patchConfig w clt clusterName fileName readStdin
    = (Val (Some (TraceErr e "")),
       effects (readFile w fileName readStdin) ++ [GetCluster clusterName])
    /\ replaceConfig w clt clusterName fileName readStdin
       = (Val (Some (TraceErr e "")),
          effects (readFile w fileName readStdin) ++ [GetCluster clusterName])
    /\ existsb isMutation
         (effects (patchConfig w clt clusterName fileName readStdin)) = false
    /\ existsb isMutation
         (effects (replaceConfig w clt clusterName fileName readStdin)) = false.
Proof.
  intros Cfg w clt clusterName fileName readStdin data e Hout Hc.
  destruct (readFile_shape w fileName readStdin) as (d & e' & t & H & _ & Hm).
  rewrite H in Hout. unfold outcome in Hout. cbn [fst] in Hout.
  inversion Hout; subst d e'.
  rewrite (patchConfig_after_read w clt clusterName fileName readStdin _ _ _ H).
  rewrite (replaceConfig_after_read w clt clusterName fileName readStdin _ _ _ H).
  rewrite H, Hc. unfold effects. cbn [snd].
  rewrite existsb_app, Hm. auto.
Qed.

(** X7 on a cluster the example store does not know. *)
Lemma unknown_cluster_changes_nothing_witness :
  patchConfig example.world example.store "other" "./patch.json" false
  = (Val (Some (TraceErr (Foreign "cluster not found") "")),
     effects (readFile example.world "./patch.json" false) ++ [GetCluster "other"]).
Proof.
  apply (proj1 (unknown_cluster_changes_nothing unit example.world
                  example.store "other" "./patch.json" false example.patch_json
                  (Foreign "cluster not found") eq_refl eq_refl)).
Defined.

(** X8.  [patchConfig] returns nil exactly when the payload was resolved,
    the store gave the cluster, and [PatchConfig] on the resolved bytes
    returned nil; the same for [replaceConfig] and [ReplaceConfig]. *)
Theorem patch_and_replace_succeed_iff :
  forall (Cfg : Type) (w : World Cfg) (clt : client Cfg)
         (clusterName fileName : string) (readStdin : bool),
    (outcome (patchConfig w clt clusterName fileName readStdin) = Val None
     <-> exists data c,
           outcome (readFile w fileName readStdin) = Val (data, None)
           /\ getCluster clt clusterName = Ok c
           /\ PatchConfig c data = None)
    /\ (outcome (replaceConfig w clt clusterName fileName readStdin) = Val None
        <-> exists data c,
              outcome (readFile w fileName readStdin) = Val (data, None)
              /\ getCluster clt clusterName = Ok c
              /\ ReplaceConfig c data = None).
Proof.
  intros Cfg w clt clusterName fileName readStdin.
  destruct (readFile_shape w fileName readStdin) as (d & e & t & H & _ & _).
  rewrite (patchConfig_after_read w clt clusterName fileName readStdin _ _ _ H).
  rewrite (replaceConfig_after_read w clt clusterName fileName readStdin _ _ _ H).
  rewrite H. unfold outcome. cbn [fst].
  split; split.
  - destruct e as [e |]; [discriminate |].
    destruct (getCluster clt clusterName) as [c | e]; [| discriminate].
    cbn [fst]. intros Hw. exists d, c. split; [reflexivity | split; [reflexivity |]].
    destruct (PatchConfig c d); [discriminate | reflexivity].
  - intros (data & c & Hr & Hc & Hp). inversion Hr; subst.
    rewrite Hc. cbn [fst]. rewrite Hp. reflexivity.
  - destruct e as [e |]; [discriminate |].
    destruct (getCluster clt clusterName) as [c | e]; [| discriminate].
    cbn [fst]. intros Hw. exists d, c. split; [reflexivity | split; [reflexivity |]].
    destruct (ReplaceConfig c d); [discriminate | reflexivity].
  - intros (data & c & Hr & Hc & Hp). inversion Hr; subst.
    rewrite Hc. cbn [fst]. rewrite Hp. reflexivity.
Qed.

(** X9.  Each of the two writing commands makes at most one change, and
    only of its own kind: [patchConfig] never calls [ReplaceConfig] and
    calls [PatchConfig] at most once, [replaceConfig] never calls
    [PatchConfig] and calls [ReplaceConfig] at most once. *)
Theorem one_change_of_its_own_kind :
  forall (Cfg : Type) (w : World Cfg) (clt : client Cfg)
         (clusterName fileName : string) (readStdin : bool),
    existsb isReplace (effects (patchConfig w clt clusterName fileName readStdin))
    = false
    /\ length (filter isPatch
                 (effects (patchConfig w clt clusterName fileName readStdin))) <= 1
    /\ existsb isPatch (effects (replaceConfig w clt clusterName fileName readStdin))
       = false
    /\ length (filter isReplace
                 (effects (replaceConfig w clt clusterName fileName readStdin))) <= 1.
Proof.
  intros Cfg w clt clusterName fileName readStdin.
  destruct (readFile_cases w fileName readStdin)
    as [[_ H] | [(_ & _ & [(d & _ & H) | (e & _ & H)])
              | (_ & _ & [(d & _ & H) | (e & _ & H)])]];
    rewrite (patchConfig_after_read w clt clusterName fileName readStdin _ _ _ H);
    rewrite (replaceConfig_after_read w clt clusterName fileName readStdin _ _ _ H);
    try destruct (getCluster clt clusterName);
    unfold effects; simpl; repeat split; auto.
Qed.

(** Every way [printConfig] can go. *)
Lemma printConfig_cases {Cfg : Type} (w : World Cfg) (clt : client Cfg)
  (clusterName : string) :
  (exists e, getCluster clt clusterName = Err e
             /\ printConfig w clt clusterName
                = (Val (Some (TraceErr e "")), [GetCluster clusterName]))
  \/ (exists c e, getCluster clt clusterName = Ok c /\ Config c = Err e
                  /\ printConfig w clt clusterName
                     = (Val (Some (TraceErr e "")),
                        [GetCluster clusterName; ClusterConfig]))
  \/ (exists c doc e, getCluster clt clusterName = Ok c /\ Config c = Ok doc
                      /\ json_MarshalIndent w doc = Err e
                      /\ printConfig w clt clusterName
                         = (Val (Some (TraceErr e "failed to marshal configuration")),
                            [GetCluster clusterName; ClusterConfig]))
  \/ (exists c doc data, getCluster clt clusterName = Ok c /\ Config c = Ok doc
                         /\ json_MarshalIndent w doc = Ok data
                         /\ printConfig w clt clusterName
                            = (Val None,
                               [GetCluster clusterName; ClusterConfig;
                                Stdout (fmt.Sprintln_bytes data)])).
Proof.
  destruct (getCluster clt clusterName) as [c | e] eqn:Hc.
  - destruct (Config c) as [doc | e] eqn:Hd.
    + destruct (json_MarshalIndent w doc) as [data | e] eqn:Hm.
      * right. right. right. exists c, doc, data.
        repeat (split; [first [reflexivity | assumption] |]).
        unfold printConfig. simpl. rewrite Hc. simpl. rewrite Hd. simpl.
        rewrite Hm. reflexivity.
      * right. right. left. exists c, doc, e.
        repeat (split; [first [reflexivity | assumption] |]).
        unfold printConfig. simpl. rewrite Hc. simpl. rewrite Hd. simpl.
        rewrite Hm. reflexivity.
    + right. left. exists c, e. repeat (split; [first [reflexivity | assumption] |]).
      unfold printConfig. simpl. rewrite Hc. simpl. rewrite Hd. reflexivity.
  - left. exists e. split; [reflexivity |].
    unfold printConfig. simpl. rewrite Hc. reflexivity.
Qed.

(** X10.  [printConfig] asks the store for the cluster, the cluster for
    its configuration, and marshals it, in this order, and stops at the
    first of the three that fails: it then returns the error of that call,
    through [trace.Wrap] (with the message "failed to marshal configuration"
    for the marshalling), having written nothing.  When the three succeed it
    writes once, the bytes of the marshalling as [fmt.Fprintln] prints them,
    and returns nil.  So it writes to the standard output exactly when it
    returns nil, and it never calls [PatchConfig] or [ReplaceConfig]. *)
Theorem printConfig_writes_iff_it_succeeds :
  forall (Cfg : Type) (w : World Cfg) (clt : client Cfg) (clusterName : string),
    (forall e,
        getCluster clt clusterName = Err e ->
        printConfig w clt clusterName
        = (Val (Wrap (Some e) ""), [GetCluster clusterName]))
    /\ (forall c e,
        getCluster clt clusterName = Ok c -> Config c = Err e ->
        printConfig w clt clusterName
        = (Val (Wrap (Some e) ""), [GetCluster clusterName; ClusterConfig]))
    /\ (forall c doc e,
        getCluster clt clusterName = Ok c -> Config c = Ok doc ->
        json_MarshalIndent w doc = Err e ->
        printConfig w clt clusterName
        = (Val (Wrap (Some e) "failed to marshal configuration"),
           [GetCluster clusterName; ClusterConfig]))
    /\ (forall c doc data,
        getCluster clt clusterName = Ok c -> Config c = Ok doc ->
        json_MarshalIndent w doc = Ok data ->
        printConfig w clt clusterName
        = (Val None,
           [GetCluster clusterName; ClusterConfig;
            Stdout (fmt.Sprintln_bytes data)]))
    /\ (existsb isStdout (effects (printConfig w clt clusterName)) = true
        <-> outcome (printConfig w clt clusterName) = Val None)
    /\ existsb isMutation (effects (printConfig w clt clusterName)) = false.
Proof.
  intros Cfg w clt clusterName.
  destruct (printConfig_cases w clt clusterName)
    as [(e & Hc & H) | [(c & e & Hc & Hd & H)
       | [(c & doc & e & Hc & Hd & Hm & H)
         | (c & doc & data & Hc & Hd & Hm & H)]]];
    rewrite H, Hc; unfold outcome, effects; cbn [fst snd];
    repeat match goal with |- _ /\ _ => split end;
    try reflexivity;
    try (intros; discriminate);
    try (split; intros; discriminate);
    try (split; reflexivity).
  - intros e' He. inversion He. reflexivity.
  - intros c' e' Hc' Hd'. inversion Hc'; subst c'. rewrite Hd in Hd'.
    inversion Hd'. reflexivity.
  - intros c' doc' e' Hc' Hd' Hm'. inversion Hc'; subst c'.
    rewrite Hd in Hd'. discriminate.
  - intros c' doc' data' Hc' Hd' Hm'. inversion Hc'; subst c'.
    rewrite Hd in Hd'. discriminate.
  - intros c' e' Hc' Hd'. inversion Hc'; subst c'. rewrite Hd in Hd'.
    discriminate.
  - intros c' doc' e' Hc' Hd' Hm'. inversion Hc'; subst c'.
    rewrite Hd in Hd'. inversion Hd'; subst doc'. rewrite Hm in Hm'.
    inversion Hm'. reflexivity.
  - intros c' doc' data' Hc' Hd' Hm'. inversion Hc'; subst c'.
    rewrite Hd in Hd'. inversion Hd'; subst doc'. rewrite Hm in Hm'.
    discriminate.
  - intros c' e' Hc' Hd'. inversion Hc'; subst c'. rewrite Hd in Hd'.
    discriminate.
  - intros c' doc' e' Hc' Hd' Hm'. inversion Hc'; subst c'.
    rewrite Hd in Hd'. inversion Hd'; subst doc'. rewrite Hm in Hm'.
    discriminate.
  - intros c' doc' data' Hc' Hd' Hm'. inversion Hc'; subst c'.
    rewrite Hd in Hd'. inversion Hd'; subst doc'. rewrite Hm in Hm'.
    inversion Hm'. reflexivity.
Qed.

(** X10 on the example store: a cluster it knows, and one it does not. *)
Lemma printConfig_writes_iff_it_succeeds_witness :
  printConfig example.world example.store "mycluster"
  = (Val None,
     [GetCluster "mycluster"; ClusterConfig;
      Stdout (fmt.Sprintln_bytes (list_byte_of_string "{}"))])
  /\ printConfig example.world example.store "other"
     = (Val (Wrap (Some (Foreign "cluster not found")) ""), [GetCluster "other"]).
Proof.
  split.
  - apply (proj1 (proj2 (proj2 (proj2
             (printConfig_writes_iff_it_succeeds unit example.world
                example.store "mycluster"))))
             example.mycluster tt (list_byte_of_string "{}")
             eq_refl eq_refl eq_refl).
  - apply (proj1 (printConfig_writes_iff_it_succeeds unit example.world
                    example.store "other")
             (Foreign "cluster not found") eq_refl).
Defined.

(** The loop of [list] writes one line per name, in order. *)
Lemma printClusters_lines (clusters : Datatypes.list string) :
  printClusters clusters
  = (Val tt, map (fun c => Stdout (fmt.Sprintln_string c)) clusters).
Proof.
  induction clusters as [| c rest IH]; [reflexivity |].
  change (printClusters (c :: rest))
    with (call (Stdout (fmt.Sprintln_string c)) tt ;;; printClusters rest).
  rewrite bind_call, IH. reflexivity.
Qed.

(** X11.  [list], for cluster names that are strings: when the store gives
    the names it writes each name followed by a newline, in the order given
    and nothing else, and returns nil (nothing is written for no name);
    when the store fails it writes nothing and returns the error under a
    wrapper. *)
Theorem list_writes_the_names_in_order :
  forall (Cfg : Type) (clt : client Cfg),
    (forall clusters,
        Clusters clt = Ok clusters ->
        list clt
        = (Val None,
           ClientClusters
           :: map (fun c => Stdout (c ++ fmt.newline)%string) clusters))
    /\ (forall e,
        Clusters clt = Err e ->
        list clt = (Val (Some (TraceErr e "")), [ClientClusters])).
Proof.
  intros Cfg clt. unfold list. split.
  - intros clusters H. rewrite bind_call, H, printClusters_lines. simpl.
    rewrite app_nil_r. reflexivity.
  - intros e H. rewrite bind_call, H. reflexivity.
Qed.

(** X11 on the example store, which holds one cluster. *)
Lemma list_writes_the_names_in_order_witness :
  list example.store
  = (Val None,
     ClientClusters
     :: map (fun c => Stdout (c ++ fmt.newline)%string) ["mycluster"]).
Proof.
  apply (proj1 (list_writes_the_names_in_order unit example.store)
           ["mycluster"] eq_refl).
Defined.

(** ** More on [run] and [main] *)

(** What [run] returns and does when the parse or [newClient] fails. *)
Lemma run_before_the_command {Cfg : Type} (w : World Cfg)
  (prog : string) (args : Datatypes.list string) :
  (forall e,
      kingpin_Parse w args = Err e ->
      run w (prog :: args)
      = (Val (Some (TraceErr e "")), [InitLoggerCLI; AppParse args]))
  /\ (forall p e,
      kingpin_Parse w args = Ok p ->
      newClient w (cfg p) = Err e ->
      run w (prog :: args)
      = (Val (Some (TraceErr e "")),
         [InitLoggerCLI; AppParse args; NewClient (cfg p)])).
Proof.
  split.
  - intros e Hp. unfold run. simpl. rewrite Hp. reflexivity.
  - intros p e Hp Hc. unfold run. simpl. rewrite Hp. simpl. rewrite Hc.
    reflexivity.
Qed.

(** X12.  [run] stops at the first thing that fails before the command:
    when [app.Parse] fails it returns the parse error under a wrapper and no
    client is built; when [newClient] fails it returns that error under a
    wrapper and no command runs.  In both cases nothing is read, written or
    asked of the store. *)
Theorem run_stops_at_failed_parse_or_client :
  forall (Cfg : Type) (w : World Cfg) (prog : string)
         (args : Datatypes.list string),
    (forall e,
        kingpin_Parse w args = Err e ->
        run w (prog :: args)
        = (Val (Some (TraceErr e "")), [InitLoggerCLI; AppParse args]))
    /\ (forall p e,
        kingpin_Parse w args = Ok p ->
        newClient w (cfg p) = Err e ->
        run w (prog :: args)
        = (Val (Some (TraceErr e "")),
           [InitLoggerCLI; AppParse args; NewClient (cfg p)])).
Proof.
  intros Cfg w prog args.
  exact (run_before_the_command w prog args).
Qed.

(** X12 on arguments the example parser rejects, and on a store that
    cannot be reached. *)
Lemma run_stops_at_failed_parse_or_client_witness :
  run example.world ["stolonctl"; "cluster"]
  = (Val (Some (TraceErr (Foreign "unexpected arguments") "")),
     [InitLoggerCLI; AppParse ["cluster"]])
  /\ run noStore ["stolonctl"; "cluster"; "patch"; "mycluster"]
     = (Val (Some (TraceErr (Foreign "store: connection refused") "")),
        [InitLoggerCLI; AppParse ["cluster"; "patch"; "mycluster"];
         NewClient example.nocfg]).
Proof.
  split.
  - apply (proj1 (run_stops_at_failed_parse_or_client unit example.world
                    "stolonctl" ["cluster"])
             (Foreign "unexpected arguments") eq_refl).
  - apply (proj2 (run_stops_at_failed_parse_or_client unit noStore
                    "stolonctl" ["cluster"; "patch"; "mycluster"])
             (example.parsed "cluster patch" "")
             (Foreign "store: connection refused") eq_refl eq_refl).
Defined.

(** Writes to the standard output are neither changes nor reads. *)
Lemma stdout_lines_are_harmless (clusters : Datatypes.list string) :
  existsb isMutation (map (fun c => Stdout (fmt.Sprintln_string c)) clusters) = false
  /\ existsb isRead (map (fun c => Stdout (fmt.Sprintln_string c)) clusters) = false.
Proof. induction clusters as [| c rest [IH1 IH2]]; simpl; auto. Qed.

(** X14.  The commands that only look never change anything: when the
    parse selects a command other than [cluster patch] and [cluster
    replace], [run] calls neither [PatchConfig] nor [ReplaceConfig] and
    reads neither the standard input nor a file, whatever the store
    answers. *)
Theorem other_commands_change_and_read_nothing :
  forall (Cfg : Type) (w : World Cfg) (prog : string)
         (args : Datatypes.list string) (p : Parsed),
    kingpin_Parse w args = Ok p ->
    cmd p <> "cluster patch" ->
    cmd p <> "cluster replace" ->
    existsb isMutation (effects (run w (prog :: args))) = false
    /\ existsb isRead (effects (run w (prog :: args))) = false.
Proof.
  intros Cfg w prog args p Hp H2 H3.
  destruct (newClient w (cfg p)) as [ctl | e] eqn:Hc.
  - rewrite (stolonctl_spec.run_reaches_switch w prog args p ctl Hp Hc).
    apply String.eqb_neq in H2, H3. rewrite H2, H3.
    rewrite !bind_call. unfold effects. cbn [fst snd].
    destruct (cmd p =? "cluster config").
    { destruct (printConfig_cases w ctl (cmdClusterConfigName p))
        as [(e & _ & H) | [(c & e & _ & _ & H)
           | [(c & doc & e & _ & _ & _ & H) | (c & doc & data & _ & _ & _ & H)]]];
        rewrite H; split; reflexivity. }
    destruct (cmd p =? "cluster status"); [split; reflexivity |].
    destruct (cmd p =? "cluster list"); [| split; reflexivity].
    unfold list. rewrite bind_call.
    destruct (Clusters ctl) as [clusters | e]; [| split; reflexivity].
    rewrite printClusters_lines. simpl. rewrite app_nil_r.
    exact (stdout_lines_are_harmless clusters).
  - rewrite (proj2 (run_before_the_command w prog args) p e Hp Hc).
    split; reflexivity.
Qed.

(** X14 on [stolonctl cluster config mycluster]. *)
Lemma other_commands_change_and_read_nothing_witness :
  existsb isMutation
    (effects (run example.world ["stolonctl"; "cluster"; "config"; "mycluster"]))
  = false
  /\ existsb isRead
       (effects (run example.world ["stolonctl"; "cluster"; "config"; "mycluster"]))
     = false.
Proof.
  apply (other_commands_change_and_read_nothing unit example.world "stolonctl"
           ["cluster"; "config"; "mycluster"]
           (example.parsed "cluster config" "") eq_refl);
    discriminate.
Defined.

(** X15.  The payload is checked after the client is built: for a
    [cluster patch] or [cluster replace] with no [--file] and a last
    argument other than [-], [run] has already parsed the arguments and
    built the store client when it returns the bad-parameter error, and it
    has asked nothing of the store. *)
Theorem source_is_checked_after_the_client_is_built :
  forall (Cfg : Type) (w : World Cfg) (prog : string)
         (front : Datatypes.list string) (a : string)
         (args : Datatypes.list string) (p : Parsed) (ctl : client Cfg),
    prog :: args = front ++ [a] ->
    a <> "-" ->
    kingpin_Parse w args = Ok p ->
    newClient w (cfg p) = Ok ctl ->
    (cmd p = "cluster patch" /\ cmdClusterPatchFile p = "")
    \/ (cmd p = "cluster replace" /\ cmdClusterReplaceFile p = "") ->
    exists e,
      run w (prog :: args)
      = (Val (Some e), [InitLoggerCLI; AppParse args; NewClient (cfg p)])
      /\ IsBadParameter e = true.
Proof.
  intros Cfg w prog front a args p ctl Hargs Ha Hp Hc Hcmd.
  rewrite (stolonctl_spec.run_reaches_switch w prog args p ctl Hp Hc).
  rewrite Hargs, stolonctl_spec.lastArg_snoc, !bind_ret.
  apply String.eqb_neq in Ha. rewrite Ha.
  destruct Hcmd as [[Hcmd Hfile] | [Hcmd Hfile]]; rewrite Hcmd, Hfile;
    eexists; split; reflexivity.
Qed.

(** X15 on [stolonctl cluster replace mycluster]. *)
Lemma source_is_checked_after_the_client_is_built_witness :
  exists e,
    run example.world ["stolonctl"; "cluster"; "replace"; "mycluster"]
    = (Val (Some e),
       [InitLoggerCLI; AppParse ["cluster"; "replace"; "mycluster"];
        NewClient example.nocfg])
    /\ IsBadParameter e = true.
Proof.
  apply (source_is_checked_after_the_client_is_built unit example.world
           "stolonctl" ["stolonctl"; "cluster"; "replace"] "mycluster"
           ["cluster"; "replace"; "mycluster"]
           (example.parsed "cluster replace" "") example.store eq_refl);
    [discriminate | reflexivity | reflexivity | right; split; reflexivity].
Defined.

(** On an argument vector that is not empty, and in a world where
    [app.Parse] returns, [run] returns: the index into [os.Args] is in
    range, and nothing in [run] exits. *)
Lemma run_returns {Cfg : Type} (w : World Cfg) (prog : string)
  (args : Datatypes.list string) :
  exists r, outcome (run w (prog :: args)) = Val r.
Proof.
  destruct (kingpin_Parse w args) as [p | e] eqn:Hp.
  2: { rewrite (proj1 (run_before_the_command w prog args) e Hp). (eexists; reflexivity). }
  destruct (newClient w (cfg p)) as [ctl | e] eqn:Hc.
  2: { rewrite (proj2 (run_before_the_command w prog args) p e Hp Hc). (eexists; reflexivity). }
  rewrite (stolonctl_spec.run_reaches_switch w prog args p ctl Hp Hc).
  rewrite !bind_call. unfold outcome. cbn [fst].
  destruct (exists_last (l := prog :: args) ltac:(discriminate)) as (front & a & Hl).
  rewrite Hl, stolonctl_spec.lastArg_snoc, !bind_ret.
  destruct (cmd p =? "cluster config").
  { destruct (printConfig_cases w ctl (cmdClusterConfigName p))
      as [(e & _ & H) | [(c & e & _ & _ & H)
         | [(c & doc & e & _ & _ & _ & H) | (c & doc & data & _ & _ & _ & H)]]];
      rewrite H; (eexists; reflexivity). }
  destruct (cmd p =? "cluster patch").
  { destruct (readFile_shape w (cmdClusterPatchFile p) (a =? "-"))
      as (d & e & t & H & _ & _).
    rewrite (patchConfig_after_read w ctl _ _ _ _ _ _ H).
    destruct e; [(eexists; reflexivity) |]. destruct (getCluster ctl _); (eexists; reflexivity). }
  destruct (cmd p =? "cluster replace").
  { destruct (readFile_shape w (cmdClusterReplaceFile p) (a =? "-"))
      as (d & e & t & H & _ & _).
    rewrite (replaceConfig_after_read w ctl _ _ _ _ _ _ H).
    destruct e; [(eexists; reflexivity) |]. destruct (getCluster ctl _); (eexists; reflexivity). }
  destruct (cmd p =? "cluster status"); [(eexists; reflexivity) |].
  destruct (cmd p =? "cluster list"); [| (eexists; reflexivity)].
  unfold list. rewrite bind_call. destruct (Clusters ctl) as [clusters | e];
    [| (eexists; reflexivity)].
  rewrite printClusters_lines. simpl. (eexists; reflexivity).
Qed.

(** X16.  On an argument vector that is not empty, once [app.Parse] has
    returned (a command or an error, [parsed]), [run] returns as well: the
    index [os.Args[len(os.Args)-1]] cannot be out of range and nothing in
    [run] ends the process.  [main] turns what [run] returns into the end of
    the process: for an error it logs that error once, after everything
    [run] did, and exits with code 1; for nil it returns with nothing
    logged. *)
Theorem main_exits_1_iff_run_fails :
  forall (Cfg : Type) (w : World Cfg) (prog : string)
         (args : Datatypes.list string) (parsed : result Parsed),
    kingpin_Parse w args = parsed ->
    exists r,
      outcome (run w (prog :: args)) = Val r
      /\ (forall e, parsed = Err e -> r = Wrap (Some e) "")
      /\ main w (prog :: args)
         = match r with
           | Some e => (Exited 1, effects (run w (prog :: args)) ++ [LogError e])
           | None => (Val tt, effects (run w (prog :: args)))
           end.
Proof.
  intros Cfg w prog args parsed Hparsed.
  destruct (run_returns w prog args) as [r Hr]. exists r.
  split; [exact Hr |]. split.
  - intros e He. rewrite He in Hparsed.
    rewrite (proj1 (run_before_the_command w prog args) e Hparsed) in Hr.
    unfold outcome in Hr. cbn [fst] in Hr. inversion Hr. reflexivity.
  - unfold main.
    destruct (run w (prog :: args)) as [o t]. unfold outcome in Hr.
    cbn [fst] in Hr. subst o. rewrite bind_val. unfold effects. cbn [snd].
    destruct r as [e |]; simpl; rewrite ?app_nil_r; reflexivity.
Qed.

(** X16 on [stolonctl cluster replace mycluster], which names no source:
    the process logs the bad-parameter error and exits with code 1. *)
Lemma main_exits_1_iff_run_fails_witness :
  exists r,
    outcome (run example.world ["stolonctl"; "cluster"; "replace"; "mycluster"])
    = Val r
    /\ (forall e,
           Ok (example.parsed "cluster replace" "") = Err e ->
           r = Wrap (Some e) "")
    /\ main example.world ["stolonctl"; "cluster"; "replace"; "mycluster"]
       = match r with
         | Some e =>
           (Exited 1,
            effects (run example.world
                       ["stolonctl"; "cluster"; "replace"; "mycluster"])
            ++ [LogError e])
         | None =>
           (Val tt,
            effects (run example.world
                       ["stolonctl"; "cluster"; "replace"; "mycluster"]))
         end.
Proof.
  apply (main_exits_1_iff_run_fails unit example.world "stolonctl"
           ["cluster"; "replace"; "mycluster"]
           (Ok (example.parsed "cluster replace" "")) eq_refl).
Defined.

End stolonctl_more.

(** ** The flag [run] hands to the payload resolver *)

Module stolonctl_flag.

Import stolonctl observe.

(** Membership in a list written out, and its negation. *)
Ltac in_explicit :=
  simpl; intuition (try discriminate; try congruence).

(** What [patchConfig] reads, by the flag and the file name it is given. *)
Lemma patchConfig_reads {Cfg : Type} (w : World Cfg) (clt : client Cfg)
  (clusterName patchFile : string) (readStdin : bool) :
  (In ReadAllStdin (effects (patchConfig w clt clusterName patchFile readStdin))
   <-> readStdin = true /\ patchFile = "")
  /\ (forall name,
         In (ReadFile name)
            (effects (patchConfig w clt clusterName patchFile readStdin))
         <-> readStdin = false /\ patchFile <> "" /\ name = patchFile).
Proof.
  destruct (stolonctl_more.readFile_cases w patchFile readStdin)
    as [[[[Hf Hs] | [Hf Hs]] H]
       | [(Hf & Hs & [(d & _ & H) | (e & _ & H)])
         | (Hf & Hs & [(d & _ & H) | (e & _ & H)])]];
    rewrite (stolonctl_more.patchConfig_after_read
               w clt clusterName patchFile readStdin _ _ _ H);
    try destruct (getCluster clt clusterName);
    unfold effects; cbn [snd]; subst; split; try intros name; in_explicit.
Qed.

(** What [replaceConfig] reads, by the flag and the file name it is
    given. *)
Lemma replaceConfig_reads {Cfg : Type} (w : World Cfg) (clt : client Cfg)
  (clusterName replaceFile : string) (readStdin : bool) :
  (In ReadAllStdin (effects (replaceConfig w clt clusterName replaceFile readStdin))
   <-> readStdin = true /\ replaceFile = "")
  /\ (forall name,
         In (ReadFile name)
            (effects (replaceConfig w clt clusterName replaceFile readStdin))
         <-> readStdin = false /\ replaceFile <> "" /\ name = replaceFile).
Proof.
  destruct (stolonctl_more.readFile_cases w replaceFile readStdin)
    as [[[[Hf Hs] | [Hf Hs]] H]
       | [(Hf & Hs & [(d & _ & H) | (e & _ & H)])
         | (Hf & Hs & [(d & _ & H) | (e & _ & H)])]];
    rewrite (stolonctl_more.replaceConfig_after_read
               w clt clusterName replaceFile readStdin _ _ _ H);
    try destruct (getCluster clt clusterName);
    unfold effects; cbn [snd]; subst; split; try intros name; in_explicit.
Qed.

(** The three calls [run] makes before its [switch] are no reads. *)
Lemma reads_after_the_switch {A : Type} (args : Datatypes.list string)
  (c : config) (m : Proc Effect A) :
  (In ReadAllStdin
      (effects (call InitLoggerCLI tt ;;; call (AppParse args) tt ;;;
                call (NewClient c) tt ;;; m))
   <-> In ReadAllStdin (effects m))
  /\ (forall name,
         In (ReadFile name)
            (effects (call InitLoggerCLI tt ;;; call (AppParse args) tt ;;;
                      call (NewClient c) tt ;;; m))
         <-> In (ReadFile name) (effects m)).
Proof.
  rewrite !bind_call. unfold effects. cbn [fst snd].
  split; try intros name; in_explicit.
Qed.

(** C8.  Let the argument vector be [front ++ [a]], so that [a] is its last
    element.  When the parse selects [cluster patch] or [cluster replace],
    [run] goes through [patchConfig] or [replaceConfig] to [readFile], the
    payload resolver, and the [readStdin] flag [readFile] is called with is
    true exactly when [a] is the string [-]; the elements of [front] play no
    part in it.  The resolver acts on it: the standard input is read exactly
    when [a] is [-] and no file is named, and the named file is read exactly
    when [a] is not [-]. *)
Theorem readStdin_iff_last_arg_is_dash :
  forall (Cfg : Type) (w : World Cfg) (prog : string)
         (front : Datatypes.list string) (a : string) (args : Datatypes.list string)
         (p : Parsed) (ctl : client Cfg),
    prog :: args = front ++ [a] ->
    kingpin_Parse w args = Ok p ->
    newClient w (cfg p) = Ok ctl ->
    exists readStdin : bool,
      (readStdin = true <-> a = "-")
      /\ (cmd p = "cluster patch" ->
          run w (prog :: args)
          = (call InitLoggerCLI tt ;;;
             call (AppParse args) tt ;;;
             call (NewClient (cfg p)) tt ;;;
             r <- readFile w (cmdClusterPatchFile p) readStdin ;;
             match snd r with
             | Some err => ret (Wrap (Some err) "")
             | None =>
               c <- call (GetCluster (cmdClusterPatchName p))
                         (getCluster ctl (cmdClusterPatchName p)) ;;
               match c with
               | Err e => ret (Wrap (Some e) "")
               | Ok cluster =>
                 err <- call (ClusterPatchConfig (fst r))
                             (PatchConfig cluster (fst r)) ;;
                 ret (Wrap err "")
               end
             end)
          /\ (In ReadAllStdin (effects (run w (prog :: args)))
              <-> a = "-" /\ cmdClusterPatchFile p = "")
          /\ (forall name,
                 In (ReadFile name) (effects (run w (prog :: args)))
                 <-> a <> "-" /\ cmdClusterPatchFile p <> ""
                     /\ name = cmdClusterPatchFile p))
      /\ (cmd p = "cluster replace" ->
          run w (prog :: args)
          = (call InitLoggerCLI tt ;;;
             call (AppParse args) tt ;;;
             call (NewClient (cfg p)) tt ;;;
             r <- readFile w (cmdClusterReplaceFile p) readStdin ;;
             match snd r with
             | Some err => ret (Wrap (Some err) "")
             | None =>
               c <- call (GetCluster (cmdClusterReplaceName p))
                         (getCluster ctl (cmdClusterReplaceName p)) ;;
               match c with
               | Err e => ret (Wrap (Some e) "")
               | Ok cluster =>
                 err <- call (ClusterReplaceConfig (fst r))
                             (ReplaceConfig cluster (fst r)) ;;
                 ret (Wrap err "")
               end
             end)
          /\ (In ReadAllStdin (effects (run w (prog :: args)))
              <-> a = "-" /\ cmdClusterReplaceFile p = "")
          /\ (forall name,
                 In (ReadFile name) (effects (run w (prog :: args)))
                 <-> a <> "-" /\ cmdClusterReplaceFile p <> ""
                     /\ name = cmdClusterReplaceFile p)).
Proof.
  intros Cfg w prog front a args p ctl Hargs Hp Hc.
  exists (a =? "-").
  assert (Hflag : (a =? "-") = true <-> a = "-") by apply String.eqb_eq.
  assert (Hoff : (a =? "-") = false <-> a <> "-") by apply String.eqb_neq.
  split; [exact Hflag |].
  rewrite (stolonctl_spec.run_reaches_switch w prog args p ctl Hp Hc).
  rewrite Hargs, stolonctl_spec.lastArg_snoc, !bind_ret.
  split; intros Hcmd; rewrite Hcmd; cbn [String.eqb Ascii.eqb Bool.eqb];
    (split; [reflexivity |]).
  - destruct (reads_after_the_switch args (cfg p)
                (patchConfig w ctl (cmdClusterPatchName p)
                   (cmdClusterPatchFile p) (a =? "-"))) as [H1 H2].
    destruct (patchConfig_reads w ctl (cmdClusterPatchName p)
                (cmdClusterPatchFile p) (a =? "-")) as [H3 H4].
    split.
    + rewrite H1, H3, Hflag. reflexivity.
    + intros name. rewrite H2, H4, Hoff. reflexivity.
  - destruct (reads_after_the_switch args (cfg p)
                (replaceConfig w ctl (cmdClusterReplaceName p)
                   (cmdClusterReplaceFile p) (a =? "-"))) as [H1 H2].
    destruct (replaceConfig_reads w ctl (cmdClusterReplaceName p)
                (cmdClusterReplaceFile p) (a =? "-")) as [H3 H4].
    split.
    + rewrite H1, H3, Hflag. reflexivity.
    + intros name. rewrite H2, H4, Hoff. reflexivity.
Qed.

(** C8 on [stolonctl cluster patch --file=./patch.json mycluster]: the last
    argument is the cluster name, the flag is false, and the file is read,
    not the standard input. *)
Lemma readStdin_iff_last_arg_is_dash_witness :
  (In (ReadFile "./patch.json")
      (effects (run example.world
                  ["stolonctl"; "cluster"; "patch"; "--file=./patch.json";
                   "mycluster"]))
   <-> "mycluster" <> "-" /\ "./patch.json" <> "" /\ "./patch.json" = "./patch.json")
  /\ (In ReadAllStdin
         (effects (run example.world
                     ["stolonctl"; "cluster"; "patch"; "--file=./patch.json";
                      "mycluster"]))
      <-> "mycluster" = "-" /\ "./patch.json" = "").
Proof.
  destruct (readStdin_iff_last_arg_is_dash unit example.world "stolonctl"
              ["stolonctl"; "cluster"; "patch"; "--file=./patch.json"]
              "mycluster"
              ["cluster"; "patch"; "--file=./patch.json"; "mycluster"]
              (example.parsed "cluster patch" "./patch.json") example.store
              eq_refl eq_refl eq_refl)
    as (b & _ & Hpatch & _).
  destruct (Hpatch eq_refl) as (_ & Hstdin & Hfile).
  split; [exact (Hfile "./patch.json") | exact Hstdin].
Defined.

End stolonctl_flag.

(** ** More on the RPC service *)

Module stolonrpc_more.

Import stolonrpc observe.

Lemma lower_idempotent (c : ascii) : lower (lower c) = lower c.
Proof. destruct c as [[] [] [] [] [] [] [] []]; reflexivity. Qed.

Lemma ToLower_idempotent (s : string) : ToLower (ToLower s) = ToLower s.
Proof.
  induction s as [| c s IH]; [reflexivity |].
  simpl. rewrite lower_idempotent, IH. reflexivity.
Qed.

(** X17.  [setupLogging] does not see the case of the letters A to Z in
    the level: a level and its lower-case form return the same and set the
    logger up the same way. *)
Theorem setupLogging_ignores_case :
  forall (w : World) (level : string),
    setupLogging w (ToLower level) = setupLogging w level.
Proof.
  intros w level. unfold setupLogging. cbv zeta.
  rewrite ToLower_idempotent. reflexivity.
Qed.

(** Every way [setupLogging] can go. *)
Lemma setupLogging_cases (w : World) (level : string) :
  let debug := if ToLower level =? "debug" then [TraceSetDebug true] else [] in
  setupLogging w level
  = match log_ParseLevel w (ToLower level) with
    | Err err => (Val (Some err), debug)
    | Ok sev =>
      (Val None, debug ++ [LogSetLevel sev; LogSetFormatter; LogSetOutput])
    end.
Proof.
  unfold setupLogging. cbv zeta.
  destruct (ToLower level =? "debug"), (log_ParseLevel w (ToLower level));
    reflexivity.
Qed.

(** X18.  When [log.ParseLevel] rejects the level, [setupLogging] returns
    its error as it is, without a wrapper, and leaves the logger alone: no
    level, formatter or output is set.  When it accepts the level, the
    three are set, in this order, and nil is returned.  In both cases
    [trace.SetDebug(true)] is called exactly when the lower-case level is
    [debug], before the level is parsed. *)
Theorem setupLogging_sets_all_or_nothing :
  forall (w : World) (level : string),
    (forall err,
        log_ParseLevel w (ToLower level) = Err err ->
        outcome (setupLogging w level) = Val (Some err)
        /\ existsb isLoggerSetup (effects (setupLogging w level)) = false)
    /\ (forall sev,
        log_ParseLevel w (ToLower level) = Ok sev ->
        outcome (setupLogging w level) = Val None
        /\ filter isLoggerSetup (effects (setupLogging w level))
           = [LogSetLevel sev; LogSetFormatter; LogSetOutput])
    /\ (In (TraceSetDebug true) (effects (setupLogging w level))
        <-> ToLower level = "debug").
Proof.
  intros w level. rewrite (setupLogging_cases w level). cbv zeta.
  split; [| split].
  - intros err H. rewrite H.
    destruct (ToLower level =? "debug"); split; reflexivity.
  - intros sev H. rewrite H.
    destruct (ToLower level =? "debug"); split; reflexivity.
  - destruct (String.eqb_spec (ToLower level) "debug") as [Hd | Hd];
      destruct (log_ParseLevel w (ToLower level)); unfold effects; cbn [snd];
      split; intros H; try assumption; try (left; reflexivity);
      try (exfalso; exact (Hd H)); simpl in H;
      repeat (destruct H as [H | H]; try discriminate H); contradiction.
Qed.

(** X18 on the level [verbose], which [logrus] rejects, and on [Debug]. *)
Lemma setupLogging_sets_all_or_nothing_witness :
  (outcome (setupLogging example.badLevel "verbose")
   = Val (Some (Foreign "not a valid logrus Level: verbose"))
   /\ existsb isLoggerSetup (effects (setupLogging example.badLevel "verbose"))
      = false)
  /\ (outcome (setupLogging example.badLevel "Debug") = Val None
      /\ filter isLoggerSetup (effects (setupLogging example.badLevel "Debug"))
         = [LogSetLevel DebugLevel; LogSetFormatter; LogSetOutput])
  /\ In (TraceSetDebug true) (effects (setupLogging example.badLevel "Debug")).
Proof.
  split; [| split].
  - apply (proj1 (setupLogging_sets_all_or_nothing example.badLevel "verbose")
             (Foreign "not a valid logrus Level: verbose") eq_refl).
  - apply (proj1 (proj2 (setupLogging_sets_all_or_nothing example.badLevel "Debug"))
             DebugLevel eq_refl).
  - apply (proj2 (proj2 (proj2 (setupLogging_sets_all_or_nothing
                                  example.badLevel "Debug")))).
    reflexivity.
Defined.

(** X19.  [GetConfig] returns a configuration exactly when it returns a
    nil error, after one call of [envconfig.Process]; whatever error
    [envconfig.Process] reports, the error [GetConfig] returns is
    [ErrCantParseConfig] under a wrapper, so the cause is not passed on. *)
Theorem GetConfig_hides_the_cause :
  forall w : World,
  exists (c : option Config) (err : option error),
    GetConfig w = (Val (c, err), [EnvconfigProcess])
    /\ (c = None <-> err <> None)
    /\ (forall config, c = Some config -> envconfig_Process w = Ok config)
    /\ (forall e, err = Some e -> Unwrap e = ErrCantParseConfig).
Proof.
  intros w. unfold GetConfig. rewrite bind_call.
  destruct (envconfig_Process w) as [config | e]; do 2 eexists;
    (split; [reflexivity |]); (split; [| split]).
  - split; [discriminate | intros H; exfalso; apply H; reflexivity].
  - intros config' H. inversion H. reflexivity.
  - discriminate.
  - split; [discriminate | reflexivity].
  - discriminate.
  - intros e' H. inversion H. reflexivity.
Qed.

(** X20.  [main] never returns.  It exits only from the supervision loop,
    so only after the configuration was read and the listener was started
    on the configured port: with code 0 only if a signal was received, with
    code 1 only if a non-nil fault was received.  When the configuration
    was read and only nil faults arrive, the process stays in the loop. *)
Theorem main_exits_only_from_the_loop :
  forall w : World,
    (forall u, outcome (main w) <> Val u)
    /\ (forall code,
        outcome (main w) = Exited code ->
        exists c,
          envconfig_Process w = Ok c
          /\ In (GoListenAndServe (":" ++ Port c)) (effects (main w))
          /\ ((code = 0%Z /\ exists s, In (FromSignalChan s) (selected w))
              \/ (code = 1%Z /\ exists e, In (FromErrChan (Some e)) (selected w))))
    /\ (forall c n,
        envconfig_Process w = Ok c ->
        selected w = nilFaults n ->
        outcome (main w) = Blocked).
Proof.
  intros w.
  destruct (envconfig_Process w) as [c | e0] eqn:Hc.
  - rewrite (stolonrpc_spec.main_after_GetConfig w c Hc).
    unfold outcome, effects. cbn [fst snd].
    assert (Hlisten :
      forall t1 t2, In (GoListenAndServe (":" ++ Port c))
                       (EnvconfigProcess :: t1 ++ startupEffects c ++ t2)).
    { intros t1 t2. right. apply in_or_app. right. apply in_or_app. left.
      unfold startupEffects. simpl. tauto. }
    destruct (stolonrpc_spec.superviseLoop_cases (selected w))
      as [(n & e & rest & Hs & H) | [(n & s & rest & Hs & H) | (n & Hs & H)]];
      rewrite H; cbn [fst snd]; (split; [discriminate |]); split.
    + intros code Hcode. inversion Hcode. exists c.
      split; [reflexivity | split; [apply Hlisten |]].
      right. split; [reflexivity |]. exists e. rewrite Hs.
      apply in_or_app. right. left. reflexivity.
    + intros c' k _ Hk. exfalso.
      assert (Hin : In (FromErrChan (Some e)) (nilFaults k))
        by (rewrite <- Hk, Hs; apply in_or_app; right; left; reflexivity).
      apply repeat_spec in Hin. discriminate.
    + intros code Hcode. inversion Hcode. exists c.
      split; [reflexivity | split; [apply Hlisten |]].
      left. split; [reflexivity |]. exists s. rewrite Hs.
      apply in_or_app. right. left. reflexivity.
    + intros c' k _ Hk. exfalso.
      assert (Hin : In (FromSignalChan s) (nilFaults k))
        by (rewrite <- Hk, Hs; apply in_or_app; right; left; reflexivity).
      apply repeat_spec in Hin. discriminate.
    + discriminate.
    + reflexivity.
  - rewrite (stolonrpc_spec.GetConfig_failure_panics w e0 Hc).
    unfold outcome. cbn [fst].
    split; [discriminate | split; [discriminate | discriminate]].
Qed.

(** X20 on a run that ends on an interrupt after a nil fault, and on a run
    where only a nil fault arrives. *)
Lemma main_exits_only_from_the_loop_witness :
  (exists c,
      envconfig_Process (example.goodLevel [FromErrChan None; FromSignalChan SIGINT])
      = Ok c
      /\ In (GoListenAndServe (":" ++ Port c))
            (effects (main (example.goodLevel
                              [FromErrChan None; FromSignalChan SIGINT])))
      /\ ((0%Z = 0%Z
           /\ exists s, In (FromSignalChan s)
                           (selected (example.goodLevel
                                        [FromErrChan None; FromSignalChan SIGINT])))
          \/ (0%Z = 1%Z
              /\ exists e, In (FromErrChan (Some e))
                              (selected (example.goodLevel
                                           [FromErrChan None;
                                            FromSignalChan SIGINT])))))
  /\ outcome (main (example.goodLevel [FromErrChan None])) = Blocked.
Proof.
  split.
  - apply (proj1 (proj2 (main_exits_only_from_the_loop
                           (example.goodLevel
                              [FromErrChan None; FromSignalChan SIGINT]))) 0%Z).
    reflexivity.
  - apply (proj2 (proj2 (main_exits_only_from_the_loop
                           (example.goodLevel [FromErrChan None])))
             {| LogLevel := "INFO"; Port := "8080"; DatabaseHost := "db";
                DatabasePort := "5432"; DatabaseUsername := "stolon" |}
             1 eq_refl eq_refl).
Defined.

End stolonrpc_more.
